(** * sendblue-ts: the key normaliser and the request pipeline

    A shallow embedding of [utils/case-transformations.ts]
    ([toCamelCase], [keysToCamelCase]), [utils/custom-error.ts]
    ([CustomError]), [error.ts] ([SendblueError]) and of the [api] closure
    built by the constructor of [Sendblue] in [index.ts].

    Strings are [string]s of code units, JSON values are a tagged union,
    JavaScript objects are association lists kept in [Object.keys] order,
    and the [async] function [api] is a computation in a small monad that
    threads the network and short-circuits on a rejected promise. *)

From Stdlib Require Import Bool Arith List Ascii String ZArith QArith_base Lia.
Import ListNotations.

Local Open Scope string_scope.
Local Open Scope list_scope.

(* ================================================================= *)
(** ** Strings: what [String.prototype] offers and the program uses *)

Module JsString.

(** Code unit of a character. *)
Definition code (c : ascii) : nat := nat_of_ascii c.

Definition is_lower (c : ascii) : bool :=
  ((97 <=? code c) && (code c <=? 122))%nat.
Definition is_upper (c : ascii) : bool :=
  ((65 <=? code c) && (code c <=? 90))%nat.

(** [toUpperCase] on one code unit. Only the ASCII range is modelled; the
    program applies it to the three verb names and to the matches of
    [/([-_][a-z])/gi], all of which are ASCII. *)
Definition upper_char (c : ascii) : ascii :=
  if is_lower c then ascii_of_nat (code c - 32)%nat else c.

(** [s.toUpperCase()] *)
Fixpoint toUpperCase (s : string) : string :=
  match s with
  | EmptyString => EmptyString
  | String c s' => String (upper_char c) (toUpperCase s')
  end.

(** [s.replace(p, r)] for a one-character string pattern [p] and the empty
    replacement [r]: only the first occurrence is removed. *)
Fixpoint remove_first (p : ascii) (s : string) : string :=
  match s with
  | EmptyString => EmptyString
  | String c s' => if Ascii.eqb c p then s' else String c (remove_first p s')
  end.

(** [pre ++ s ++ post]: [s] occurs inside the string. *)
Definition occurs_in (s t : string) : Prop :=
  exists pre post, t = (pre ++ s ++ post)%string.

End JsString.

(* ================================================================= *)
(** ** case-transformations.ts: [toCamelCase] *)

Definition hyphen : ascii := "-"%char.
Definition underscore : ascii := "_"%char.

(** The character class [[-_]]. *)
Definition is_sep (c : ascii) : bool :=
  Ascii.eqb c hyphen || Ascii.eqb c underscore.

(** The character class [[a-z]] under the flag [i] (and without [u]): the
    ASCII letters of either case. *)
Definition is_letter (c : ascii) : bool :=
  JsString.is_lower c || JsString.is_upper c.

(** The replacer callback
    [$1 => $1.toUpperCase().replace("-", empty).replace("_", empty)], where
    [empty] is the empty string. *)
Definition replacer (m : string) : string :=
  JsString.remove_first underscore
    (JsString.remove_first hyphen (JsString.toUpperCase m)).

(** [value.replace(/([-_][a-z])/gi, replacer)]: the global replace scans left
    to right; where the expression matches (a character of [[-_]] followed by
    one of [[a-z]], case ignored), the two-character match is replaced by the
    callback's result and the scan resumes after the match; elsewhere the
    character is copied and the scan moves one position on. *)
Fixpoint toCamelCase (value : string) : string :=
  match value with
  | EmptyString => EmptyString
  | String c tail =>
      match tail with
      | String d rest =>
          if is_sep c && is_letter d
          then (replacer (String c (String d EmptyString)) ++ toCamelCase rest)%string
          else String c (toCamelCase tail)
      | EmptyString => String c EmptyString
      end
  end.

(** The claim's description of the function, character by character: a
    separator that is immediately followed by a letter is dropped, a letter
    that is immediately preceded by a separator is written in upper case, and
    every other character is kept as it is. [prev] is the character before
    the current one. *)
Definition next_is_letter (s : string) : bool :=
  match s with
  | String d _ => is_letter d
  | EmptyString => false
  end.

Fixpoint camelCase_from (prev : option ascii) (s : string) : string :=
  match s with
  | EmptyString => EmptyString
  | String c s' =>
      let after_sep := match prev with Some p => is_sep p | None => false end in
      if is_sep c && next_is_letter s' then camelCase_from (Some c) s'
      else if after_sep && is_letter c
           then String (JsString.upper_char c) (camelCase_from (Some c) s')
           else String c (camelCase_from (Some c) s')
  end.

Definition camelCase_spec (s : string) : string := camelCase_from None s.

(* ================================================================= *)
(** ** JSON-compatible values and JavaScript objects *)

(** What [response.json()] can produce. An object is the list of its own
    enumerable string-keyed properties in [Object.keys] order. Numbers are
    never inspected by the normaliser; a rational stands for the double. *)
Unset Elimination Schemes.
Inductive JSON : Type :=
| JNull
| JBool (b : bool)
| JNumber (n : Q)
| JString (s : string)
| JArray (items : list JSON)
| JObject (fields : list (string * JSON)).
Set Elimination Schemes.

Module JsObject.
Section Props.
Context {A : Type}.

(** [o[k] = v]: an existing property keeps its place and takes the new
    value, a new property is added after the others. *)
Fixpoint set (o : list (string * A)) (k : string) (v : A)
  : list (string * A) :=
  match o with
  | [] => [(k, v)]
  | (k', v') :: o' =>
      if String.eqb k' k then (k', v) :: o' else (k', v') :: set o' k v
  end.

(** The value of the own property [k] of [o]: what [o[k]] gives when
    [Object.hasOwn(o, k)]; [None] when [o] has no own property of that
    name. What an object inherits from [Object.prototype] is not in the
    list, and a read of an inherited name is not modelled by [get]. *)
Fixpoint get (o : list (string * A)) (k : string) : option A :=
  match o with
  | [] => None
  | (k', v') :: o' => if String.eqb k' k then Some v' else get o' k
  end.

(** [Object.keys(o)] *)
Definition keys (o : list (string * A)) : list string := map fst o.

(** The value of the last entry of an entry list whose key satisfies
    [p]. *)
Fixpoint last_where (p : string -> bool) (l : list (string * A))
  : option A :=
  match l with
  | [] => None
  | (k, v) :: l' =>
      match last_where p l' with
      | Some w => Some w
      | None => if p k then Some v else None
      end
  end.

(** No string occurs twice in the list. *)
Fixpoint distinct (l : list string) : bool :=
  match l with
  | [] => true
  | k :: l' => negb (existsb (String.eqb k) l') && distinct l'
  end.

(** A run of assignments [o[k] = v], one per entry of [l], in order. *)
Definition assign_all (o l : list (string * A)) : list (string * A) :=
  fold_left (fun result e => set result (fst e) (snd e)) l o.
End Props.
End JsObject.

(* ================================================================= *)
(** ** case-transformations.ts: [keysToCamelCase] *)

(** The first branch is taken when [value === Object(value)], the value is
    not an array and not a function: among JSON values, exactly the objects.
    The [forEach] over [Object.keys(value)] assigns into [result], which
    starts empty. The second branch is [Array.isArray(value)]. *)
Fixpoint keysToCamelCase (value : JSON) : JSON :=
  match value with
  | JObject fields =>
      JObject
        (fold_left
           (fun result entry =>
              JsObject.set result (toCamelCase (fst entry))
                (keysToCamelCase (snd entry)))
           fields [])
  | JArray items => JArray (map keysToCamelCase items)
  | _ => value
  end.

(** What one turn of the [forEach] assigns: the key in camelCase and the
    normalised value. *)
Definition normalize_entry (e : string * JSON) : string * JSON :=
  (toCamelCase (fst e), keysToCamelCase (snd e)).

(** *** Measures of a value, for the statements about structure *)

(** Nesting depth: a scalar has depth 0, a container one more than the
    deepest of its members. *)
Fixpoint depth (v : JSON) : nat :=
  match v with
  | JObject fields =>
      S (fold_right Nat.max 0%nat (map (fun e => depth (snd e)) fields))
  | JArray items => S (fold_right Nat.max 0%nat (map depth items))
  | _ => 0%nat
  end.

(** The value with the name of every object field blanked: what is left is
    the nesting, the number and order of members and the scalars. *)
Fixpoint erase_keys (v : JSON) : JSON :=
  match v with
  | JObject fields =>
      JObject (map (fun e => (EmptyString, erase_keys (snd e))) fields)
  | JArray items => JArray (map erase_keys items)
  | _ => v
  end.

(** Every key of every object inside the value, outermost first. *)
Fixpoint keys_deep (v : JSON) : list string :=
  match v with
  | JObject fields => flat_map (fun e => fst e :: keys_deep (snd e)) fields
  | JArray items => flat_map keys_deep items
  | _ => []
  end.

Definition all_keys (p : string -> bool) (v : JSON) : bool :=
  forallb p (keys_deep v).

(** No object inside the value has two keys with the same camelCase form. *)
Fixpoint collision_free (v : JSON) : bool :=
  match v with
  | JObject fields =>
      JsObject.distinct (map (fun e => toCamelCase (fst e)) fields)
      && forallb (fun e => collision_free (snd e)) fields
  | JArray items => forallb collision_free items
  | _ => true
  end.

Definition is_scalar (v : JSON) : bool :=
  match v with
  | JObject _ | JArray _ => false
  | _ => true
  end.

(** The regular expression of [toCamelCase] matches at the head of the
    string: a separator followed by a letter. *)
Definition match_at_head (s : string) : bool :=
  match s with
  | String c tail => is_sep c && next_is_letter tail
  | EmptyString => false
  end.

(** The expression matches somewhere in the string. *)
Fixpoint has_match (s : string) : bool :=
  match s with
  | EmptyString => false
  | String _ tail => match_at_head s || has_match tail
  end.

(** Two separators followed by a letter occur in the string. *)
Fixpoint has_sep_sep_letter (s : string) : bool :=
  match s with
  | EmptyString => false
  | String c tail => (is_sep c && match_at_head tail) || has_sep_sep_letter tail
  end.

Definition next_is_lower (s : string) : bool :=
  match s with
  | String d _ => JsString.is_lower d
  | EmptyString => false
  end.

(** A separator followed by a lower-case letter occurs in the string. *)
Fixpoint has_sep_lower (s : string) : bool :=
  match s with
  | EmptyString => false
  | String c tail => (is_sep c && next_is_lower tail) || has_sep_lower tail
  end.

(** The string is made of decimal digits only, as the property names are
    that [Object.keys] lists first, in numeric order (array indices). *)
Fixpoint all_digits (s : string) : bool :=
  match s with
  | EmptyString => true
  | String c tail =>
      ((48 <=? JsString.code c) && (JsString.code c <=? 57))%nat
      && all_digits tail
  end.

(** One pass of [toCamelCase] brings the key to a fixed point. *)
Definition stable_key (k : string) : bool :=
  String.eqb (toCamelCase (toCamelCase k)) (toCamelCase k).

(** The nested example of the specification. *)
Definition nested_example : JSON :=
  JObject
    [("status", JString "SENT");
     ("error_detail",
      JObject
        [("error_code", JString "42");
         ("nested_list", JArray [JObject [("from_number", JString "x")]])])].

(** [n] arrays of one object each, around a scalar: nesting of depth
    [2 * n], with a snake_case key at every second level. *)
Fixpoint tower (key : string) (n : nat) : JSON :=
  match n with
  | O => JNull
  | S m => JArray [JObject [(key, tower key m)]]
  end.

(* ================================================================= *)
(** ** custom-error.ts and error.ts *)

(** [CustomErrorOptions<ErrorName>]; [cause] is typed [unknown] in the
    source and is a type parameter here. *)
Record CustomErrorOptions (Cause : Type) : Type := mkOptions {
  opt_name : string;
  opt_message : string;
  opt_cause : Cause
}.
Arguments mkOptions {Cause}.
Arguments opt_name {Cause}.
Arguments opt_message {Cause}.
Arguments opt_cause {Cause}.

(** [class CustomError<ErrorName> extends Error] *)
Record CustomError (Cause : Type) : Type := mkCustomError {
  error_name : string;
  error_message : string;
  error_cause : Cause
}.
Arguments mkCustomError {Cause}.
Arguments error_name {Cause}.
Arguments error_message {Cause}.
Arguments error_cause {Cause}.

(** The constructor copies the three options into the instance. *)
Definition new_CustomError {Cause : Type} (o : CustomErrorOptions Cause)
  : CustomError Cause :=
  mkCustomError (opt_name o) (opt_message o) (opt_cause o).

(** [type APIRequestFailure = "API_REQUEST_FAILURE"], the only member of
    [SendblueErrorName]. *)
Definition API_REQUEST_FAILURE : string := "API_REQUEST_FAILURE".

(* ================================================================= *)
(** ** index.ts: the [api] closure of [Sendblue] *)

(** [method: "post" | "get" | "delete"] *)
Inductive Method : Type := post | get | delete.

Definition method_name (m : Method) : string :=
  match m with
  | post => "post"
  | get => "get"
  | delete => "delete"
  end.

(** The second argument of [fetch]; [None] in [req_body] is [null]. *)
Record RequestInit : Type := mkInit {
  req_method : string;
  req_body : option string;
  req_headers : list (string * string)
}.

Record Request : Type := mkRequest {
  req_url : string;
  req_init : RequestInit
}.

(** A settled promise. *)
Inductive Settled (E A : Type) : Type :=
| Fulfilled (a : A)
| Rejected (e : E).
Arguments Fulfilled {E A}.
Arguments Rejected {E A}.

(** A rejection reason made by the platform ([fetch], [response.json()]). *)
Definition HostError : Type := string.

(** What the program reads of a [Response]: [status], and what
    [response.json()] settles to, a rejection when the body is not JSON. *)
Record Response : Type := mkResponse {
  resp_status : Z;
  resp_json : Settled HostError JSON
}.

(** [response.ok]: the status is in the range 200 to 299. *)
Definition resp_ok (r : Response) : bool :=
  ((200 <=? resp_status r) && (resp_status r <=? 299))%Z.

(** [cause: { request, response: { code, message } }]; [None] is
    [undefined]. *)
Record CauseResponse : Type := mkCauseResponse {
  cause_code : Z;
  cause_message : option JSON
}.

Record Cause : Type := mkCause {
  cause_request : option string;
  cause_response : CauseResponse
}.

(** [class SendblueError extends CustomError<SendblueErrorName>] *)
Definition SendblueError : Type := CustomError Cause.

(** What a call can reject with. *)
Inductive Thrown : Type :=
| HostThrown (e : HostError)
| TypeErrorThrown
| SendblueThrown (e : SendblueError).

(** The network: how the promise of [fetch] settles for a request (with the
    server's response, or with a rejection: a network failure, or the
    platform's own refusal of the request), and the requests that have gone
    out so far. *)
Record Network : Type := mkNetwork {
  respond : Request -> Settled HostError Response;
  sent : list Request
}.

(** An [async] computation: it runs against the network and settles. *)
Definition Async (A : Type) : Type := Network -> Settled Thrown A * Network.

Definition ret {A : Type} (a : A) : Async A := fun net => (Fulfilled a, net).

Definition throw {A : Type} (e : Thrown) : Async A :=
  fun net => (Rejected e, net).

(** [await]: a rejection ends the function with that rejection. *)
Definition bind {A B : Type} (m : Async A) (k : A -> Async B) : Async B :=
  fun net =>
    match m net with
    | (Fulfilled a, net') => k a net'
    | (Rejected e, net') => (Rejected e, net')
    end.

Notation "x <- m ;; k" := (bind m (fun x => k))
  (at level 61, m at next level, right associativity).

(** A promise settled by the platform, awaited. *)
Definition await_host {A : Type} (p : Settled HostError A) : Async A :=
  fun net =>
    match p with
    | Fulfilled a => (Fulfilled a, net)
    | Rejected e => (Rejected (HostThrown e), net)
    end.

(** The platform makes no request out of a [GET] or [HEAD] method with a
    body that is not [null]: [fetch] then rejects with a [TypeError] and
    nothing is sent. *)
Definition fetch_refuses (init : RequestInit) : bool :=
  (String.eqb (req_method init) "GET" || String.eqb (req_method init) "HEAD")
  && match req_body init with
     | Some _ => true
     | None => false
     end.

(** [fetch(url, init)]: the request goes out, unless the platform refuses
    it; the promise settles as [respond] says. *)
Definition fetch (url : string) (init : RequestInit) : Async Response :=
  fun net =>
    let request := mkRequest url init in
    await_host (respond net request)
      (mkNetwork (respond net)
         (if fetch_refuses init then sent net else sent net ++ [request])).

(** [ToBoolean] on a JSON value. *)
Definition truthy (v : JSON) : bool :=
  match v with
  | JNull => false
  | JBool b => b
  | JNumber n => negb (Qeq_bool n (0 # 1))
  | JString s => negb (String.eqb s EmptyString)
  | JArray _ | JObject _ => true
  end.

(** [ToBoolean] on the optional argument; [None] is [undefined]. *)
Definition truthy_payload (payload : option JSON) : bool :=
  match payload with
  | Some v => truthy v
  | None => false
  end.

(** [responseBody.message]: reading a property of [null] throws a
    [TypeError]; an object gives its own property or [undefined]; strings,
    numbers, booleans and arrays have no property of that name. *)
(** The own property [message] of an object; [Object.prototype] has no
    member of that name, so that for an object [responseBody.message] is
    this property, or [undefined]. *)
Definition own_message (responseBody : JSON) : option JSON :=
  match responseBody with
  | JObject fields => JsObject.get fields "message"
  | _ => None
  end.

Definition read_message (responseBody : JSON) : Async (option JSON) :=
  match responseBody with
  | JNull => throw TypeErrorThrown
  | _ => ret (own_message responseBody)
  end.

Definition sendblueBaseUrl : string := "https://api.sendblue.co".

Definition double_quote : string := String (ascii_of_nat 34) EmptyString.

Section Api.

(** [JSON.stringify] on a JSON value, a function of the platform. *)
Variable JSON_stringify : JSON -> string.

(** [JSON.stringify(payload)]: [undefined] for [undefined]. *)
Definition stringify (payload : option JSON) : option string :=
  option_map JSON_stringify payload.

Variables publicKey secretKey : string.

Definition api (method : Method) (pathname : string)
    (payload : option JSON) : Async JSON :=
  response <-
    fetch (sendblueBaseUrl ++ pathname)%string
      (mkInit
         (JsString.toUpperCase (method_name method))
         (if truthy_payload payload then stringify payload else None)
         [("sb-api-key-id", publicKey);
          ("sb-api-secret-key", secretKey);
          ("Content-Type", "application/json")]) ;;
  parsed <- await_host (resp_json response) ;;
  let responseBody := keysToCamelCase parsed in
  if negb (resp_ok response) then
    request <- ret (stringify payload) ;;
    message <- read_message responseBody ;;
    throw
      (SendblueThrown
         (new_CustomError
            (mkOptions API_REQUEST_FAILURE
               ("Error fetching data from Sendblue on route "
                  ++ double_quote ++ pathname ++ double_quote)%string
               (mkCause request
                  (mkCauseResponse (resp_status response) message)))))
  else ret responseBody.

End Api.

(* ================================================================= *)
(** ** index.ts: the endpoint methods of [Sendblue] *)

(** [type MessageSendStyle] *)
Inductive MessageSendStyle : Type :=
| celebration | shooting_star | fireworks | lasers | love | confetti
| balloons | spotlight | echo | invisible | gentle | loud | slam.

Definition style_name (s : MessageSendStyle) : string :=
  match s with
  | celebration => "celebration"
  | shooting_star => "shooting_star"
  | fireworks => "fireworks"
  | lasers => "lasers"
  | love => "love"
  | confetti => "confetti"
  | balloons => "balloons"
  | spotlight => "spotlight"
  | echo => "echo"
  | invisible => "invisible"
  | gentle => "gentle"
  | loud => "loud"
  | slam => "slam"
  end.

(** [modifyType: "add_recipient"] *)
Inductive ModifyType : Type := add_recipient.

Definition modify_type_name (m : ModifyType) : string :=
  match m with add_recipient => "add_recipient" end.

(** An object literal as [api] sees it, not the object itself. [api] only
    tests the payload for truthiness and hands it to [JSON.stringify],
    which skips the properties whose value is [undefined]: for these two
    uses, and for no other, the literal stands for the object of its
    defined properties, in the order written. [None] is [undefined]. *)
Definition object_literal (props : list (string * option JSON)) : JSON :=
  JObject
    (flat_map
       (fun p => match snd p with Some v => [(fst p, v)] | None => [] end)
       props).

Definition sendMessage_payload (number content : string)
    (sendStyle : option MessageSendStyle)
    (mediaUrl statusCallback : option string) : JSON :=
  object_literal
    [("number", Some (JString number));
     ("content", Some (JString content));
     ("send_style", option_map (fun s => JString (style_name s)) sendStyle);
     ("media_url", option_map JString mediaUrl);
     ("status_callback", option_map JString statusCallback)].

Definition sendGroupMessage_payload (numbers : list string) (content : string)
    (groupId : option string) (sendStyle : option MessageSendStyle)
    (mediaUrl statusCallback : option string) : JSON :=
  object_literal
    [("numbers", Some (JArray (map JString numbers)));
     ("group_id", option_map JString groupId);
     ("content", Some (JString content));
     ("send_style", option_map (fun s => JString (style_name s)) sendStyle);
     ("media_url", option_map JString mediaUrl);
     ("status_callback", option_map JString statusCallback)].

Definition modifyGroup_payload (groupId : string) (modifyType : ModifyType)
    (number : string) : JSON :=
  object_literal
    [("group_id", Some (JString groupId));
     ("modify_type", Some (JString (modify_type_name modifyType)));
     ("number", Some (JString number))].

(** [{ ...opts }] with [opts: { number: string }] *)
Definition sendTypingIndicator_payload (number : string) : JSON :=
  object_literal [("number", Some (JString number))].

Definition createContact_payload (number : string)
    (firstName lastName companyName : option string) : JSON :=
  object_literal
    [("number", Some (JString number));
     ("firstName", option_map JString firstName);
     ("lastName", option_map JString lastName);
     ("companyName", option_map JString companyName)].

Section Endpoints.

Variable JSON_stringify : JSON -> string.
Variables publicKey secretKey : string.

(** [this.api] of the instance made by [new Sendblue(publicKey, secretKey)]. *)
Definition this_api : Method -> string -> option JSON -> Async JSON :=
  api JSON_stringify publicKey secretKey.

(** [return (await this.api(...)) as SendMessageResponse] *)
Definition sendMessage (number content : string)
    (sendStyle : option MessageSendStyle)
    (mediaUrl statusCallback : option string) : Async JSON :=
  result <-
    this_api post "/api/send-message"
      (Some (sendMessage_payload number content sendStyle mediaUrl
               statusCallback)) ;;
  ret result.

Definition sendGroupMessage (numbers : list string) (content : string)
    (groupId : option string) (sendStyle : option MessageSendStyle)
    (mediaUrl statusCallback : option string) : Async JSON :=
  this_api post "/api/send-group-message"
    (Some (sendGroupMessage_payload numbers content groupId sendStyle mediaUrl
             statusCallback)).

Definition getMessage (id : string) : Async JSON :=
  this_api get ("/api/message/" ++ id)%string None.

Definition modifyGroup (groupId : string) (modifyType : ModifyType)
    (number : string) : Async JSON :=
  this_api post "/modify-group"
    (Some (modifyGroup_payload groupId modifyType number)).

Definition lookup (number : string) : Async JSON :=
  this_api get ("/api/evaluate-service?number=" ++ number)%string None.

(** [return (await this.api(...)) as SendTypingIndicatorResponse] *)
Definition sendTypingIndicator (number : string) : Async JSON :=
  result <-
    this_api post ("/api/send-typing-indicator?number=" ++ number)%string
      (Some (sendTypingIndicator_payload number)) ;;
  ret result.

Definition getContacts : Async JSON :=
  this_api get "/accounts/contacts" None.

Definition createContact (number : string)
    (firstName lastName companyName : option string) : Async JSON :=
  this_api post "/accounts/contacts"
    (Some (createContact_payload number firstName lastName companyName)).

Definition deleteContact (id : string) : Async JSON :=
  this_api delete ("/accounts/contacts/" ++ id)%string None.

Definition getMessages (contactId : string) : Async JSON :=
  this_api get ("/accounts/messages?cid=" ++ contactId)%string None.

End Endpoints.

(* ================================================================= *)
(** ** index.ts and case-transformations.ts: the response types *)

(** The intrinsic type [Capitalize<S>]: the first character in upper case.
    Only the ASCII range is modelled (as [JsString.upper_char]); the
    intrinsic also changes other letters, which the names of snake_case
    shape considered below do not have after an underscore. *)
Definition Capitalize (s : string) : string :=
  match s with
  | EmptyString => EmptyString
  | String c tail => String (JsString.upper_char c) tail
  end.

(** [Value extends `${infer Char}${"_"}${infer Rest}`]: the string is
    split at its first underscore, [Char] being what stands before it (it
    may be empty) and [Rest] what stands after; [None] when there is no
    underscore. *)
Fixpoint split_underscore (s : string) : option (string * string) :=
  match s with
  | EmptyString => None
  | String c tail =>
      if Ascii.eqb c underscore then Some (EmptyString, tail)
      else match split_underscore tail with
           | Some (char, rest) => Some (String c char, rest)
           | None => None
           end
  end.

(** [type SnakeToCamelCase<Value>]: with [Value] split as above the result
    is [`${Char}${Capitalize<SnakeToCamelCase<Rest>>}`], and [Value] itself
    when there is no underscore. The characters of [Char] are copied one by
    one until the underscore is met. *)
Fixpoint SnakeToCamelCase (value : string) : string :=
  match value with
  | EmptyString => EmptyString
  | String c tail =>
      if Ascii.eqb c underscore then Capitalize (SnakeToCamelCase tail)
      else String c (SnakeToCamelCase tail)
  end.

(** The property names of [interface SendMessageRawResponse], in the order
    declared. *)
Definition SendMessageRawResponse_keys : list string :=
  ["accountEmail"; "content"; "is_outbound"; "media_url"; "status";
   "error_code"; "error_message"; "message_handle"; "date_sent";
   "date_updated"; "from_number"; "number"; "to_number"; "was_downgraded";
   "plan"; "message_type"; "group_id"; "participants"; "send_style";
   "opted_out"; "error_detail"].

(** The property names of [interface SendTypingIndicatorRawResponse]. *)
Definition SendTypingIndicatorRawResponse_keys : list string :=
  ["number"; "status"; "error_message"; "status_code"].

(** [{ [Key in keyof Raw as SnakeToCamelCase<Key>]: Raw[Key] }]: the
    property names of the camelCased response type. *)
Definition camelCased_keys (raw : list string) : list string :=
  map SnakeToCamelCase raw.

(* ================================================================= *)
(** ** Further measures of strings and objects *)

(** The number of positions at which the regular expression of
    [toCamelCase] matches. *)
Fixpoint count_matches (s : string) : nat :=
  match s with
  | EmptyString => 0%nat
  | String _ tail =>
      ((if match_at_head s then 1 else 0) + count_matches tail)%nat
  end.

(** The last character of the string is a separator. *)
Fixpoint ends_with_sep (s : string) : bool :=
  match s with
  | EmptyString => false
  | String c EmptyString => is_sep c
  | String _ tail => ends_with_sep tail
  end.

(** An upper-case ASCII letter occurs in the string. *)
Fixpoint has_upper (s : string) : bool :=
  match s with
  | EmptyString => false
  | String c tail => JsString.is_upper c || has_upper tail
  end.

(** Every underscore stands directly before a letter and no hyphen does:
    the shape of a snake_case name. *)
Fixpoint snake_shaped (s : string) : bool :=
  match s with
  | EmptyString => true
  | String c tail =>
      (if Ascii.eqb c underscore then next_is_letter tail
       else if Ascii.eqb c hyphen then negb (next_is_letter tail)
       else true)
      && snake_shaped tail
  end.

(** The strings of a list in the order of their first occurrence. *)
Definition first_occurrences (l : list string) : list string :=
  fold_left
    (fun seen k => if existsb (String.eqb k) seen then seen else seen ++ [k])
    l [].

(** The object that a list of named values describes when a later value
    replaces an earlier one of the same name: one property for each name, in
    the order in which the names first occur, holding the last value given
    under that name. *)
Definition last_write_wins (entries : list (string * JSON))
  : list (string * JSON) :=
  flat_map
    (fun q =>
       match JsObject.last_where (fun k => String.eqb k q) entries with
       | Some x => [(q, x)]
       | None => []
       end)
    (first_occurrences (JsObject.keys entries)).

(** The key normaliser as the specification describes it, by the shape of
    the value: a scalar is itself; an array is the array of its normalised
    elements; an object has, at every depth, each key in camelCase and each
    value normalised, colliding keys being settled by [last_write_wins]. *)
Fixpoint normalize_spec (v : JSON) : JSON :=
  match v with
  | JObject fields =>
      JObject
        (last_write_wins
           (map (fun e => (toCamelCase (fst e), normalize_spec (snd e)))
              fields))
  | JArray items => JArray (map normalize_spec items)
  | _ => v
  end.

(* ================================================================= *)
(** * Properties *)

(** ** Characters and the replacer *)

Ltac ascii_cases c := destruct c as [[] [] [] [] [] [] [] []].

Lemma is_sep_inv (c : ascii) :
  is_sep c = true -> c = hyphen \/ c = underscore.
Proof.
  unfold is_sep. intros H. apply orb_true_iff in H.
  destruct H as [H | H]; apply Ascii.eqb_eq in H; auto.
Qed.

Lemma letter_not_sep (d : ascii) : is_letter d = true -> is_sep d = false.
Proof.
  ascii_cases d; intros H; vm_compute in H; try discriminate H; reflexivity.
Qed.

Lemma upper_char_letter (d : ascii) :
  is_letter d = true -> is_letter (JsString.upper_char d) = true.
Proof.
  ascii_cases d; intros H; vm_compute in H; try discriminate H; reflexivity.
Qed.

(** On a match of the regular expression the callback returns the letter in
    upper case and nothing else. *)
Lemma replacer_match (c d : ascii) :
  is_sep c = true -> is_letter d = true ->
  replacer (String c (String d EmptyString))
  = String (JsString.upper_char d) EmptyString.
Proof.
  intros Hc Hd. destruct (is_sep_inv c Hc); subst c;
    ascii_cases d; vm_compute in Hd; try discriminate Hd; reflexivity.
Qed.

(** Induction two characters at a time, as the scan of [toCamelCase] moves. *)
Lemma string_ind2 (P : string -> Prop) :
  P EmptyString ->
  (forall c, P (String c EmptyString)) ->
  (forall c d rest, P rest -> P (String d rest) -> P (String c (String d rest))) ->
  forall s, P s.
Proof.
  intros H0 H1 H2 s.
  assert (H : P s /\ forall c, P (String c s)).
  { induction s as [|d rest [IHa IHb]].
    - split; [exact H0 | exact H1].
    - split; [apply IHb | intros c; apply H2; [exact IHa | apply IHb]]. }
  exact (proj1 H).
Qed.

(** The two equations of the scan. *)
Lemma toCamelCase_match (c d : ascii) (rest : string) :
  is_sep c = true -> is_letter d = true ->
  toCamelCase (String c (String d rest))
  = String (JsString.upper_char d) (toCamelCase rest).
Proof.
  intros Hc Hd. simpl toCamelCase. rewrite Hc, Hd. simpl andb. cbv iota.
  rewrite (replacer_match c d Hc Hd). reflexivity.
Qed.

Lemma toCamelCase_copy (c d : ascii) (rest : string) :
  is_sep c && is_letter d = false ->
  toCamelCase (String c (String d rest))
  = String c (toCamelCase (String d rest)).
Proof.
  intros H. change (toCamelCase (String c (String d rest)))
    with (if is_sep c && is_letter d
          then (replacer (String c (String d EmptyString)) ++ toCamelCase rest)%string
          else String c (toCamelCase (String d rest))).
  rewrite H. reflexivity.
Qed.

(** The scan and the character-by-character description agree whenever the
    scan reaches [s] with no match pending from the character before. *)
Lemma toCamelCase_from (s : string) :
  forall prev,
    (match prev with Some p => is_sep p | None => false end)
      && next_is_letter s = false ->
    toCamelCase s = camelCase_from prev s.
Proof.
  induction s as [|c|c d rest IHrest IHtail] using string_ind2; intros prev Hprev.
  - reflexivity.
  - simpl in *. rewrite andb_false_r. rewrite Hprev. reflexivity.
  - destruct (is_sep c && is_letter d) eqn:E.
    + apply andb_true_iff in E. destruct E as [Hc Hd].
      rewrite (toCamelCase_match c d rest Hc Hd).
      simpl camelCase_from. rewrite Hc, Hd. simpl.
      rewrite (letter_not_sep d Hd). simpl.
      f_equal. apply IHrest. simpl. rewrite (letter_not_sep d Hd). reflexivity.
    + rewrite (toCamelCase_copy c d rest E).
      change (camelCase_from prev (String c (String d rest)))
        with (if is_sep c && is_letter d
              then camelCase_from (Some c) (String d rest)
              else if (match prev with Some p => is_sep p | None => false end)
                        && is_letter c
                   then String (JsString.upper_char c)
                          (camelCase_from (Some c) (String d rest))
                   else String c (camelCase_from (Some c) (String d rest))).
      rewrite E. simpl in Hprev. rewrite Hprev.
      f_equal. apply IHtail. exact E.
Qed.

(** C1. For every string, [toCamelCase] drops each hyphen or underscore that
    is immediately followed by a letter (an ASCII letter, of either case) and
    writes that letter in upper case, and keeps every other character: it is
    the function [camelCase_spec]. The six examples of the specification
    evaluate as stated. *)
Theorem toCamelCase_replaces_separator_letter :
  (forall s, toCamelCase s = camelCase_spec s)
  /\ (forall c d rest,
        toCamelCase (String c (String d rest))
        = if is_sep c && is_letter d
          then String (JsString.upper_char d) (toCamelCase rest)
          else String c (toCamelCase (String d rest)))
  /\ toCamelCase "media_url" = "mediaUrl"
  /\ toCamelCase "error_code" = "errorCode"
  /\ toCamelCase "already_camel" = "alreadyCamel"
  /\ toCamelCase "no-sep" = "noSep"
  /\ toCamelCase EmptyString = EmptyString
  /\ toCamelCase "trailing_" = "trailing_".
Proof.
  split; [|split; [|repeat split]].
  - intros s. apply toCamelCase_from. reflexivity.
  - intros c d rest. destruct (is_sep c && is_letter d) eqn:E.
    + apply andb_true_iff in E. destruct E as [Hc Hd].
      apply toCamelCase_match; assumption.
    + apply toCamelCase_copy, E.
Qed.

(** C10. The result of [toCamelCase] is never longer than its argument. *)
Theorem toCamelCase_length_le (s : string) :
  (String.length (toCamelCase s) <= String.length s)%nat.
Proof.
  induction s as [|c|c d rest IHrest IHtail] using string_ind2.
  - apply Nat.le_refl.
  - apply Nat.le_refl.
  - destruct (is_sep c && is_letter d) eqn:E.
    + apply andb_true_iff in E. destruct E as [Hc Hd].
      rewrite (toCamelCase_match c d rest Hc Hd).
      change (S (String.length (toCamelCase rest))
              <= S (S (String.length rest)))%nat.
      lia.
    + rewrite (toCamelCase_copy c d rest E).
      change (S (String.length (toCamelCase (String d rest)))
              <= S (String.length (String d rest)))%nat.
      lia.
Qed.

(** ** What the object model relies on

    [result[key] = value] is modelled as an assignment to an own property,
    new names being added after the others. Two things could make an
    assignment behave otherwise on the object [{}]: the name [__proto__],
    which is an accessor, and a name that is an array index, which
    [Object.keys] lists before the others. [toCamelCase] never returns the
    first, and it neither makes nor unmakes a name of digits, so that index
    names stay first, in the order they had. *)

Lemma lower_is_letter (d : ascii) :
  JsString.is_lower d = true -> is_letter d = true.
Proof. unfold is_letter. intros ->. reflexivity. Qed.

Lemma upper_char_not_lower (d : ascii) :
  JsString.is_lower (JsString.upper_char d) = false.
Proof. ascii_cases d; reflexivity. Qed.

Lemma is_sep_not_lower (c : ascii) :
  is_sep c = true -> JsString.is_lower c = false.
Proof.
  intros H. destruct (is_sep_inv c H); subst c; reflexivity.
Qed.

Lemma next_is_lower_toCamelCase (s : string) :
  next_is_lower (toCamelCase s) = next_is_lower s.
Proof.
  destruct s as [|c [|d rest]]; try reflexivity.
  destruct (is_sep c && is_letter d) eqn:E.
  - apply andb_true_iff in E. destruct E as [Hc Hd].
    rewrite (toCamelCase_match c d rest Hc Hd). simpl.
    rewrite upper_char_not_lower, (is_sep_not_lower c Hc). reflexivity.
  - rewrite (toCamelCase_copy c d rest E). reflexivity.
Qed.

(** In a result of [toCamelCase] no separator stands before a lower-case
    letter. *)
Lemma toCamelCase_no_sep_lower (s : string) :
  has_sep_lower (toCamelCase s) = false.
Proof.
  induction s as [|c|c d rest IHrest IHtail] using string_ind2.
  - reflexivity.
  - simpl. rewrite andb_false_r. reflexivity.
  - destruct (is_sep c && is_letter d) eqn:E.
    + pose proof E as E'. apply andb_true_iff in E'. destruct E' as [Hc Hd].
      rewrite (toCamelCase_match c d rest Hc Hd). cbn [has_sep_lower].
      rewrite (letter_not_sep _ (upper_char_letter d Hd)), IHrest.
      reflexivity.
    + rewrite (toCamelCase_copy c d rest E). cbn [has_sep_lower].
      rewrite IHtail, orb_false_r, next_is_lower_toCamelCase. simpl.
      destruct (is_sep c); [|reflexivity]. simpl in E |- *.
      destruct (JsString.is_lower d) eqn:L; [|reflexivity].
      rewrite (lower_is_letter d L) in E. discriminate E.
Qed.

Lemma toCamelCase_never_proto (k : string) : toCamelCase k <> "__proto__".
Proof.
  intros H. pose proof (toCamelCase_no_sep_lower k) as Hk.
  rewrite H in Hk. discriminate Hk.
Qed.

Lemma upper_char_not_digit (d : ascii) :
  is_letter d = true ->
  ((48 <=? JsString.code (JsString.upper_char d))
   && (JsString.code (JsString.upper_char d) <=? 57))%nat = false.
Proof.
  ascii_cases d; intros H; vm_compute in H; try discriminate H; reflexivity.
Qed.

Lemma toCamelCase_all_digits (s : string) :
  all_digits (toCamelCase s) = all_digits s
  /\ (all_digits s = true -> toCamelCase s = s).
Proof.
  induction s as [|c|c d rest IHrest IHtail] using string_ind2.
  - split; reflexivity.
  - split; reflexivity.
  - destruct (is_sep c && is_letter d) eqn:E.
    + pose proof E as E'. apply andb_true_iff in E'. destruct E' as [Hc Hd].
      rewrite (toCamelCase_match c d rest Hc Hd).
      assert (Hcd : ((48 <=? JsString.code c) && (JsString.code c <=? 57))%nat
                    = false).
      { destruct (is_sep_inv c Hc); subst c; reflexivity. }
      cbn [all_digits]. rewrite (upper_char_not_digit d Hd), Hcd.
      split; [reflexivity | discriminate].
    + rewrite (toCamelCase_copy c d rest E).
      destruct IHtail as [IHa IHb]. split.
      * change (all_digits (String c (toCamelCase (String d rest))))
          with (((48 <=? JsString.code c) && (JsString.code c <=? 57))%nat
                && all_digits (toCamelCase (String d rest))).
        rewrite IHa. reflexivity.
      * intros H.
        change (all_digits (String c (String d rest)))
          with (((48 <=? JsString.code c) && (JsString.code c <=? 57))%nat
                && all_digits (String d rest)) in H.
        apply andb_true_iff in H. destruct H as [_ H].
        f_equal. apply IHb, H.
Qed.

(** ** Objects as ordered property lists *)

Module JsObjectFacts.
Import JsObject.
Section Facts.
Context {A : Type}.
Implicit Types (o l : list (string * A)) (k : string) (v : A).

Lemma distinct_NoDup (ks : list string) :
  distinct ks = true <-> NoDup ks.
Proof.
  induction ks as [|k ks IH]; simpl.
  - split; [constructor | reflexivity].
  - rewrite andb_true_iff, negb_true_iff, IH. split.
    + intros [Hk Hks]. constructor; [|exact Hks].
      intros Hin. assert (existsb (String.eqb k) ks = true) as E.
      { apply existsb_exists. exists k. split; [exact Hin|apply String.eqb_refl]. }
      congruence.
    + intros H. inversion H as [|? ? Hk Hks]; subst. split; [|exact Hks].
      destruct (existsb (String.eqb k) ks) eqn:E; [|reflexivity].
      apply existsb_exists in E. destruct E as [k' [Hin Heq]].
      apply String.eqb_eq in Heq. subst k'. contradiction.
Qed.

Lemma get_set o k v q :
  get (set o k v) q = if String.eqb k q then Some v else get o q.
Proof.
  induction o as [|[k' v'] o IH]; simpl.
  - reflexivity.
  - destruct (String.eqb k' k) eqn:E; simpl.
    + apply String.eqb_eq in E. subst k'.
      destruct (String.eqb k q); reflexivity.
    + rewrite IH. destruct (String.eqb k' q) eqn:E'; [|reflexivity].
      apply String.eqb_eq in E'. subst k'.
      rewrite String.eqb_sym, E. reflexivity.
Qed.

Lemma keys_set_in o k v q :
  In q (keys (set o k v)) <-> In q (keys o) \/ q = k.
Proof.
  induction o as [|[k' v'] o IH]; simpl.
  - intuition congruence.
  - destruct (String.eqb k' k) eqn:E; simpl.
    + apply String.eqb_eq in E. subst k'. intuition congruence.
    + fold (keys (set o k v)). fold (keys o). rewrite IH. tauto.
Qed.

Lemma set_fresh o k v :
  ~ In k (keys o) -> set o k v = o ++ [(k, v)].
Proof.
  induction o as [|[k' v'] o IH]; simpl; intros Hk.
  - reflexivity.
  - destruct (String.eqb k' k) eqn:E.
    + apply String.eqb_eq in E. tauto.
    + f_equal. apply IH. tauto.
Qed.

Lemma NoDup_keys_set o k v :
  NoDup (keys o) -> NoDup (keys (set o k v)).
Proof.
  induction o as [|[k' v'] o IH]; simpl; intros H.
  - constructor; [intros []|constructor].
  - inversion H as [|? ? Hk' Ho]; subst.
    destruct (String.eqb k' k) eqn:E; simpl.
    + constructor; assumption.
    + constructor; [|apply IH; exact Ho].
      fold (keys (set o k v)). rewrite keys_set_in.
      intros [Hin | Heq]; [contradiction|].
      subst k'. rewrite String.eqb_refl in E. discriminate.
Qed.

Lemma in_set o k v e :
  In e (set o k v) -> In e o \/ e = (k, v).
Proof.
  induction o as [|[k' v'] o IH]; simpl.
  - intuition.
  - destruct (String.eqb k' k) eqn:E; simpl.
    + apply String.eqb_eq in E. subst k'. intuition.
    + intros [H | H]; [auto|]. apply IH in H. tauto.
Qed.

Lemma assign_all_cons o e l :
  assign_all o (e :: l) = assign_all (set o (fst e) (snd e)) l.
Proof. reflexivity. Qed.

(** Reading a property after a run of assignments: the last assignment
    to that name wins, and a name not assigned keeps its value. *)
Lemma get_assign_all l : forall o q,
  get (assign_all o l) q =
  match last_where (fun k => String.eqb k q) l with
  | Some w => Some w
  | None => get o q
  end.
Proof.
  induction l as [|[k v] l IH]; intros o q.
  - reflexivity.
  - rewrite assign_all_cons, IH. simpl. rewrite get_set.
    destruct (last_where (fun k0 => String.eqb k0 q) l); [reflexivity|].
    destruct (String.eqb k q); reflexivity.
Qed.

Lemma keys_assign_all_in l : forall o q,
  In q (keys (assign_all o l)) <-> In q (keys o) \/ In q (keys l).
Proof.
  induction l as [|[k v] l IH]; intros o q.
  - simpl. tauto.
  - rewrite assign_all_cons, IH, keys_set_in. simpl. intuition.
Qed.

Lemma NoDup_keys_assign_all l : forall o,
  NoDup (keys o) -> NoDup (keys (assign_all o l)).
Proof.
  induction l as [|e l IH]; intros o H.
  - exact H.
  - rewrite assign_all_cons. apply IH, NoDup_keys_set, H.
Qed.

Lemma in_assign_all l : forall o e,
  In e (assign_all o l) -> In e o \/ In e l.
Proof.
  induction l as [|[k v] l IH]; intros o e H.
  - auto.
  - rewrite assign_all_cons in H. apply IH in H. simpl.
    destruct H as [H | H]; [|auto].
    apply in_set in H. simpl in H. intuition.
Qed.

(** Assignments to names that are new and pairwise different only add
    properties, in order. *)
Lemma assign_all_fresh l : forall o,
  NoDup (keys l) ->
  (forall q, In q (keys l) -> ~ In q (keys o)) ->
  assign_all o l = o ++ l.
Proof.
  induction l as [|[k v] l IH]; intros o Hnd Hfresh.
  - simpl. rewrite app_nil_r. reflexivity.
  - rewrite assign_all_cons. simpl in *.
    inversion Hnd as [|? ? Hk Hl]; subst.
    rewrite set_fresh by (apply Hfresh; auto).
    rewrite IH.
    + rewrite <- app_assoc. reflexivity.
    + exact Hl.
    + intros q Hq. unfold keys. rewrite map_app, in_app_iff. simpl.
      intros [Hin | [Heq | []]].
      * apply (Hfresh q); auto.
      * subst q. contradiction.
Qed.

(** Two assignments to one name leave fewer properties than there were
    assignments. *)
Lemma assign_all_collision_length l :
  ~ NoDup (keys l) ->
  (List.length (assign_all [] l) < List.length l)%nat.
Proof.
  intros Hdup.
  destruct (Nat.lt_ge_cases (List.length (assign_all [] l)) (List.length l))
    as [Hlt | Hge]; [exact Hlt|].
  exfalso. apply Hdup.
  apply (NoDup_incl_NoDup (l := keys (assign_all [] l))).
  - apply NoDup_keys_assign_all. constructor.
  - unfold keys. rewrite !length_map. exact Hge.
  - intros q Hq. apply keys_assign_all_in in Hq.
    destruct Hq as [[] | Hq]. exact Hq.
Qed.

Lemma last_where_map {B : Type} (f : string -> string) (g : B -> A)
    (p : string -> bool) (l : list (string * B)) :
  last_where p (map (fun e => (f (fst e), g (snd e))) l)
  = option_map g (last_where (fun k => p (f k)) l).
Proof.
  induction l as [|[k v] l IH]; simpl.
  - reflexivity.
  - rewrite IH. destruct (last_where (fun k0 => p (f k0)) l); simpl.
    + reflexivity.
    + destruct (p (f k)); reflexivity.
Qed.
End Facts.
End JsObjectFacts.

(** ** The key normaliser *)

(** Structural induction on JSON values, with the hypothesis for every
    member of a container. *)
Lemma JSON_ind (P : JSON -> Prop) :
  P JNull ->
  (forall b, P (JBool b)) ->
  (forall n, P (JNumber n)) ->
  (forall s, P (JString s)) ->
  (forall items, Forall P items -> P (JArray items)) ->
  (forall fields, Forall (fun e => P (snd e)) fields -> P (JObject fields)) ->
  forall v, P v.
Proof.
  intros Hnull Hbool Hnum Hstr Harr Hobj.
  fix IH 1. intros [ | b | n | s | items | fields].
  - exact Hnull.
  - apply Hbool.
  - apply Hnum.
  - apply Hstr.
  - apply Harr. induction items as [|x items IHitems]; constructor.
    + apply IH.
    + exact IHitems.
  - apply Hobj. induction fields as [|[k x] fields IHfields]; constructor.
    + apply IH.
    + exact IHfields.
Qed.

(** The object branch is a run of assignments of the normalised entries
    into an empty object. *)
Lemma keysToCamelCase_object (fields : list (string * JSON)) :
  keysToCamelCase (JObject fields)
  = JObject (JsObject.assign_all [] (map normalize_entry fields)).
Proof.
  cbn [keysToCamelCase]. f_equal. unfold JsObject.assign_all.
  generalize (@nil (string * JSON)) as acc.
  induction fields as [|e fields IH]; intros acc.
  - reflexivity.
  - simpl. apply IH.
Qed.

Lemma keysToCamelCase_array (items : list JSON) :
  keysToCamelCase (JArray items) = JArray (map keysToCamelCase items).
Proof. reflexivity. Qed.

Lemma keys_deep_field (fields : list (string * JSON)) (k : string) (x : JSON) :
  In (k, x) fields ->
  In k (keys_deep (JObject fields))
  /\ forall q, In q (keys_deep x) -> In q (keys_deep (JObject fields)).
Proof.
  intros Hin. cbn [keys_deep]. split.
  - apply in_flat_map. exists (k, x). split; [exact Hin|]. left. reflexivity.
  - intros q Hq. apply in_flat_map. exists (k, x). split; [exact Hin|].
    right. exact Hq.
Qed.

Lemma keys_deep_item (items : list JSON) (x : JSON) :
  In x items ->
  forall q, In q (keys_deep x) -> In q (keys_deep (JArray items)).
Proof.
  intros Hin q Hq. cbn [keys_deep]. apply in_flat_map. exists x. auto.
Qed.

Lemma all_keys_field (p : string -> bool) fields k x :
  all_keys p (JObject fields) = true -> In (k, x) fields ->
  p k = true /\ all_keys p x = true.
Proof.
  unfold all_keys. intros H Hin. rewrite forallb_forall in H.
  destruct (keys_deep_field fields k x Hin) as [Hk Hx]. split.
  - apply H, Hk.
  - apply forallb_forall. intros q Hq. apply H, Hx, Hq.
Qed.

Lemma all_keys_item (p : string -> bool) items x :
  all_keys p (JArray items) = true -> In x items -> all_keys p x = true.
Proof.
  unfold all_keys. intros H Hin. rewrite forallb_forall in H.
  apply forallb_forall. intros q Hq. apply H.
  apply (keys_deep_item items x Hin q Hq).
Qed.

(** Every property of a normalised object is some normalised entry of the
    input, and no two of its properties share a name. *)
Lemma normalized_fields (fields : list (string * JSON)) :
  let out := JsObject.assign_all [] (map normalize_entry fields) in
  NoDup (JsObject.keys out)
  /\ forall e, In e out -> exists k x, In (k, x) fields /\ e = normalize_entry (k, x).
Proof.
  intros out. split.
  - apply JsObjectFacts.NoDup_keys_assign_all. constructor.
  - intros e He. apply JsObjectFacts.in_assign_all in He.
    destruct He as [[] | He]. apply in_map_iff in He.
    destruct He as [[k x] [Heq Hin]]. exists k, x. split; [exact Hin|].
    symmetry. exact Heq.
Qed.

(** *** Scalars *)

(** C4. A scalar (string, number, boolean or null) is returned as it is; the
    casing transform applies to object keys only, so a bare string such as
    ["a_b"] keeps its underscore. *)
Theorem keysToCamelCase_scalar (v : JSON) :
  is_scalar v = true -> keysToCamelCase v = v.
Proof.
  destruct v; intros H; try reflexivity; discriminate H.
Qed.

Lemma keysToCamelCase_scalar_witness :
  is_scalar (JString "a_b") = true
  /\ keysToCamelCase (JString "a_b") = JString "a_b".
Proof.
  split; [reflexivity|].
  apply (keysToCamelCase_scalar (JString "a_b")). reflexivity.
Defined.

(** *** Idempotence *)

Lemma no_match_fixed (s : string) :
  has_match s = false -> toCamelCase s = s.
Proof.
  induction s as [|c|c d rest IHrest IHtail] using string_ind2; intros H.
  - reflexivity.
  - reflexivity.
  - change (has_match (String c (String d rest)))
      with ((is_sep c && is_letter d) || has_match (String d rest)) in H.
    apply orb_false_iff in H. destruct H as [E H].
    rewrite (toCamelCase_copy c d rest E). f_equal. apply IHtail, H.
Qed.

(** The head of the result is a letter only if the head of the argument is
    one or a match starts there. *)
Lemma next_is_letter_toCamelCase (s : string) :
  next_is_letter (toCamelCase s) = next_is_letter s || match_at_head s.
Proof.
  destruct s as [|c [|d rest]].
  - reflexivity.
  - simpl. rewrite andb_false_r, orb_false_r. reflexivity.
  - destruct (is_sep c && is_letter d) eqn:E.
    + pose proof E as E'. apply andb_true_iff in E'. destruct E' as [Hc Hd].
      rewrite (toCamelCase_match c d rest Hc Hd).
      simpl. rewrite Hc, Hd, (upper_char_letter d Hd), orb_true_r. reflexivity.
    + rewrite (toCamelCase_copy c d rest E). simpl. simpl in E. rewrite E.
      rewrite orb_false_r. reflexivity.
Qed.

Lemma no_sep_sep_letter_no_match (s : string) :
  has_sep_sep_letter s = false -> has_match (toCamelCase s) = false.
Proof.
  induction s as [|c|c d rest IHrest IHtail] using string_ind2; intros H.
  - reflexivity.
  - simpl. rewrite andb_false_r. reflexivity.
  - change (has_sep_sep_letter (String c (String d rest)))
      with ((is_sep c && match_at_head (String d rest))
            || has_sep_sep_letter (String d rest)) in H.
    apply orb_false_iff in H. destruct H as [Hhead Htail].
    destruct (is_sep c && is_letter d) eqn:E.
    + pose proof E as E'. apply andb_true_iff in E'. destruct E' as [Hc Hd].
      rewrite (toCamelCase_match c d rest Hc Hd).
      cbn [has_match match_at_head].
      rewrite (letter_not_sep _ (upper_char_letter d Hd)). simpl.
      apply IHrest.
      change (has_sep_sep_letter (String d rest))
        with ((is_sep d && match_at_head rest) || has_sep_sep_letter rest)
        in Htail.
      apply orb_false_iff in Htail. exact (proj2 Htail).
    + rewrite (toCamelCase_copy c d rest E).
      cbn [has_match match_at_head].
      rewrite (IHtail Htail), orb_false_r.
      rewrite next_is_letter_toCamelCase.
      destruct (is_sep c) eqn:Hc; [|reflexivity].
      simpl in Hhead, E |- *. rewrite E. simpl.
      simpl in Hhead. exact Hhead.
Qed.

Lemma no_sep_sep_letter_stable (k : string) :
  has_sep_sep_letter k = false -> stable_key k = true.
Proof.
  intros H. unfold stable_key. apply String.eqb_eq.
  apply no_match_fixed, no_sep_sep_letter_no_match, H.
Qed.

Lemma keysToCamelCase_idempotent (v : JSON) :
  all_keys stable_key v = true ->
  keysToCamelCase (keysToCamelCase v) = keysToCamelCase v.
Proof.
  induction v as [ | b | n | s | items IH | fields IH] using JSON_ind; intros Hk;
    try reflexivity.
  - rewrite !keysToCamelCase_array. f_equal. rewrite map_map.
    apply map_ext_in. intros x Hx. rewrite Forall_forall in IH.
    apply IH; [exact Hx|]. apply (all_keys_item _ items x Hk Hx).
  - rewrite keysToCamelCase_object.
    destruct (normalized_fields fields) as [Hnd Hall].
    set (out := JsObject.assign_all [] (map normalize_entry fields)) in *.
    rewrite keysToCamelCase_object. f_equal.
    assert (Hfix : map normalize_entry out = out).
    { rewrite <- (map_id out) at 2. apply map_ext_in. intros e He.
      destruct (Hall e He) as [k [x [Hin ->]]].
      destruct (all_keys_field _ fields k x Hk Hin) as [Hst Hx].
      unfold normalize_entry. simpl. f_equal.
      - apply String.eqb_eq. exact Hst.
      - rewrite Forall_forall in IH. apply (IH (k, x) Hin Hx). }
    rewrite Hfix.
    rewrite (JsObjectFacts.assign_all_fresh out []); [reflexivity|exact Hnd|].
    intros q _ [].
Qed.

(** C2 (as the code has it). Normalising twice gives what normalising once
    gives, for every value whose object keys, at every depth, are brought to
    a fixed point by one pass of [toCamelCase]; by
    [no_sep_sep_letter_stable] these include every key in which no two
    separators in a row stand before a letter. *)
Theorem keysToCamelCase_idempotent_on_stable_keys (v : JSON) :
  all_keys stable_key v = true ->
  keysToCamelCase (keysToCamelCase v) = keysToCamelCase v.
Proof.
  exact (keysToCamelCase_idempotent v).
Qed.

Lemma keysToCamelCase_idempotent_on_stable_keys_witness :
  all_keys stable_key nested_example = true
  /\ keysToCamelCase (keysToCamelCase nested_example)
     = keysToCamelCase nested_example.
Proof.
  split; [reflexivity|].
  apply (keysToCamelCase_idempotent_on_stable_keys nested_example).
  reflexivity.
Defined.

(** C2 as stated fails: the key ["__a"] becomes ["_A"] in one pass and ["A"]
    in the next. *)
Lemma keysToCamelCase_not_idempotent :
  keysToCamelCase (JObject [("__a", JNull)]) = JObject [("_A", JNull)]
  /\ keysToCamelCase (keysToCamelCase (JObject [("__a", JNull)]))
     = JObject [("A", JNull)]
  /\ keysToCamelCase (keysToCamelCase (JObject [("__a", JNull)]))
     <> keysToCamelCase (JObject [("__a", JNull)]).
Proof.
  split; [reflexivity|]. split; [reflexivity|].
  intros H. vm_compute in H. discriminate H.
Qed.

(** *** Structure *)

Lemma depth_erase_keys (v : JSON) : depth (erase_keys v) = depth v.
Proof.
  induction v as [ | b | n | s | items IH | fields IH] using JSON_ind;
    try reflexivity.
  - cbn [erase_keys depth]. f_equal. f_equal. rewrite map_map.
    apply map_ext_in. intros x Hx. rewrite Forall_forall in IH. apply IH, Hx.
  - cbn [erase_keys depth]. f_equal. f_equal. rewrite map_map.
    apply map_ext_in. intros e He. rewrite Forall_forall in IH.
    simpl. apply IH, He.
Qed.

Lemma collision_free_object (fields : list (string * JSON)) :
  collision_free (JObject fields) = true ->
  NoDup (map toCamelCase (JsObject.keys fields))
  /\ forall e, In e fields -> collision_free (snd e) = true.
Proof.
  cbn [collision_free]. intros H. apply andb_true_iff in H.
  destruct H as [Hd Hall]. split.
  - apply JsObjectFacts.distinct_NoDup in Hd. unfold JsObject.keys.
    rewrite map_map. exact Hd.
  - rewrite forallb_forall in Hall. exact Hall.
Qed.

(** Without a collision the normalised object has one property per property
    of the input, in the input's order. *)
Lemma keysToCamelCase_object_collision_free (fields : list (string * JSON)) :
  NoDup (map toCamelCase (JsObject.keys fields)) ->
  keysToCamelCase (JObject fields) = JObject (map normalize_entry fields).
Proof.
  intros Hnd. rewrite keysToCamelCase_object. f_equal.
  rewrite JsObjectFacts.assign_all_fresh; [reflexivity| |intros q _ []].
  unfold JsObject.keys in *. rewrite map_map in *. exact Hnd.
Qed.

Lemma erase_keys_normalized (v : JSON) :
  collision_free v = true ->
  erase_keys (keysToCamelCase v) = erase_keys v.
Proof.
  induction v as [ | b | n | s | items IH | fields IH] using JSON_ind;
    intros Hcf; try reflexivity.
  - rewrite keysToCamelCase_array. cbn [erase_keys]. f_equal.
    rewrite map_map. apply map_ext_in. intros x Hx.
    rewrite Forall_forall in IH. apply IH; [exact Hx|].
    cbn [collision_free] in Hcf. rewrite forallb_forall in Hcf. apply Hcf, Hx.
  - destruct (collision_free_object fields Hcf) as [Hnd Hall].
    rewrite (keysToCamelCase_object_collision_free fields Hnd).
    cbn [erase_keys]. f_equal. rewrite map_map. apply map_ext_in.
    intros e He. simpl. f_equal. rewrite Forall_forall in IH.
    apply IH; [exact He|]. apply Hall, He.
Qed.

(** C3 (as the code has it). For every value in which no object, at any
    depth, has two keys with the same camelCase form, the normalised value
    differs from the input in the names of object fields only: with the
    names blanked the two are equal (same nesting, same array lengths, same
    order of members, same scalars), and so are their nesting depths. *)
Theorem keysToCamelCase_preserves_structure (v : JSON) :
  collision_free v = true ->
  erase_keys (keysToCamelCase v) = erase_keys v
  /\ depth (keysToCamelCase v) = depth v.
Proof.
  intros Hcf. pose proof (erase_keys_normalized v Hcf) as He. split.
  - exact He.
  - rewrite <- (depth_erase_keys (keysToCamelCase v)), He.
    apply depth_erase_keys.
Qed.

Lemma keysToCamelCase_preserves_structure_witness :
  collision_free nested_example = true
  /\ erase_keys (keysToCamelCase nested_example) = erase_keys nested_example
  /\ depth (keysToCamelCase nested_example) = depth nested_example.
Proof.
  split; [reflexivity|].
  apply (keysToCamelCase_preserves_structure nested_example). reflexivity.
Defined.

(** C3 as stated fails: when ["a_b"] and ["a-b"] collide, the array held by
    the first is overwritten by the scalar held by the second, and the
    result is an object of depth 1 where the input has depth 2. *)
Lemma keysToCamelCase_collision_changes_depth :
  keysToCamelCase
    (JObject [("a_b", JArray [JNumber (1 # 1)]); ("a-b", JNumber (2 # 1))])
  = JObject [("aB", JNumber (2 # 1))]
  /\ depth (keysToCamelCase
       (JObject [("a_b", JArray [JNumber (1 # 1)]); ("a-b", JNumber (2 # 1))]))
     <> depth
          (JObject [("a_b", JArray [JNumber (1 # 1)]); ("a-b", JNumber (2 # 1))]).
Proof.
  split; [reflexivity|]. intros H. vm_compute in H. discriminate H.
Qed.

(** *** Totality and full recursion *)

Lemma keys_deep_normalized (v : JSON) :
  forall q, In q (keys_deep (keysToCamelCase v)) ->
            In q (map toCamelCase (keys_deep v)).
Proof.
  induction v as [ | b | n | s | items IH | fields IH] using JSON_ind;
    intros q Hq; try (simpl in Hq; contradiction).
  - rewrite keysToCamelCase_array in Hq. cbn [keys_deep] in Hq.
    apply in_flat_map in Hq. destruct Hq as [y [Hy Hq]].
    apply in_map_iff in Hy. destruct Hy as [x [<- Hx]].
    rewrite Forall_forall in IH. apply (IH x Hx) in Hq.
    apply in_map_iff in Hq. destruct Hq as [k [<- Hk]].
    apply in_map. apply (keys_deep_item items x Hx k Hk).
  - rewrite keysToCamelCase_object in Hq. cbn [keys_deep] in Hq.
    apply in_flat_map in Hq. destruct Hq as [e [He Hq]].
    destruct (normalized_fields fields) as [_ Hall].
    destruct (Hall e He) as [k [x [Hin ->]]].
    destruct (keys_deep_field fields k x Hin) as [Hk Hx].
    unfold normalize_entry in Hq. simpl in Hq. destruct Hq as [<- | Hq].
    + apply in_map, Hk.
    + rewrite Forall_forall in IH. apply (IH (k, x) Hin) in Hq.
      apply in_map_iff in Hq. destruct Hq as [k0 [<- Hk0]].
      apply in_map, Hx, Hk0.
Qed.

Lemma depth_tower (key : string) (n : nat) :
  depth (tower key n) = (2 * n)%nat.
Proof.
  induction n as [|n IH].
  - reflexivity.
  - cbn [tower depth map fold_right snd]. rewrite IH. lia.
Qed.

Lemma keysToCamelCase_tower (key : string) (n : nat) :
  keysToCamelCase (tower key n) = tower (toCamelCase key) n.
Proof.
  induction n as [|n IH].
  - reflexivity.
  - cbn [tower]. rewrite keysToCamelCase_array. cbn [map].
    rewrite keysToCamelCase_object. cbn [map]. unfold normalize_entry.
    cbn [fst snd]. rewrite IH. reflexivity.
Qed.

(** *** Collisions *)

Lemma NoDup_map_injective {A B : Type} (f : A -> B) (l : list A) (a b : A) :
  NoDup (map f l) -> In a l -> In b l -> f a = f b -> a = b.
Proof.
  induction l as [|x l IH]; simpl; intros Hnd Ha Hb Hf; [contradiction|].
  inversion Hnd as [|? ? Hx Hl]; subst.
  destruct Ha as [-> | Ha], Hb as [-> | Hb].
  - reflexivity.
  - exfalso. apply Hx. rewrite Hf. apply in_map, Hb.
  - exfalso. apply Hx. rewrite <- Hf. apply in_map, Ha.
  - apply IH; assumption.
Qed.

Lemma last_where_found {A : Type} (p : string -> bool)
    (l : list (string * A)) (k : string) :
  In k (JsObject.keys l) -> p k = true ->
  exists x, JsObject.last_where p l = Some x.
Proof.
  induction l as [|[k' v] l IH]; simpl; intros Hin Hp; [contradiction|].
  destruct (JsObject.last_where p l) as [w|] eqn:E.
  - exists w. reflexivity.
  - destruct Hin as [-> | Hin].
    + rewrite Hp. exists v. reflexivity.
    + destruct (IH Hin Hp) as [x Hx]. discriminate Hx.
Qed.

(** C8. When two different keys of an object have the same camelCase form,
    the normalised object binds that form to the normalised value of the
    last key, in [Object.keys] order, that has this form, and it has fewer
    properties than the input. *)
Theorem keysToCamelCase_collision_last_wins
    (fields : list (string * JSON)) (k1 k2 : string) :
  k1 <> k2 ->
  In k1 (JsObject.keys fields) ->
  In k2 (JsObject.keys fields) ->
  toCamelCase k1 = toCamelCase k2 ->
  exists out x,
    keysToCamelCase (JObject fields) = JObject out
    /\ JsObject.last_where
         (fun k => String.eqb (toCamelCase k) (toCamelCase k1)) fields
       = Some x
    /\ JsObject.get out (toCamelCase k1) = Some (keysToCamelCase x)
    /\ (List.length out < List.length fields)%nat.
Proof.
  intros Hne H1 H2 Hc.
  destruct (last_where_found
              (fun k => String.eqb (toCamelCase k) (toCamelCase k1))
              fields k1 H1 (String.eqb_refl _)) as [x Hx].
  exists (JsObject.assign_all [] (map normalize_entry fields)), x.
  split; [apply keysToCamelCase_object|]. split; [exact Hx|]. split.
  - rewrite JsObjectFacts.get_assign_all.
    unfold normalize_entry.
    rewrite (JsObjectFacts.last_where_map toCamelCase keysToCamelCase
               (fun k => String.eqb k (toCamelCase k1)) fields).
    rewrite Hx. reflexivity.
  - rewrite <- (length_map normalize_entry fields).
    apply JsObjectFacts.assign_all_collision_length.
    unfold JsObject.keys in *. rewrite map_map. simpl.
    intros Hnd. apply Hne.
    rewrite <- (map_map fst toCamelCase) in Hnd.
    exact (NoDup_map_injective toCamelCase (map fst fields) k1 k2 Hnd H1 H2 Hc).
Qed.

Lemma keysToCamelCase_collision_last_wins_witness :
  keysToCamelCase
    (JObject [("a-b", JString "first"); ("x", JNull); ("a_b", JString "last")])
  = JObject [("aB", JString "last"); ("x", JNull)]
  /\ exists out x,
       keysToCamelCase
         (JObject
            [("a-b", JString "first"); ("x", JNull); ("a_b", JString "last")])
       = JObject out
       /\ JsObject.last_where
            (fun k => String.eqb (toCamelCase k) (toCamelCase "a-b"))
            [("a-b", JString "first"); ("x", JNull); ("a_b", JString "last")]
          = Some x
       /\ JsObject.get out (toCamelCase "a-b") = Some (keysToCamelCase x)
       /\ (List.length out < 3)%nat.
Proof.
  split; [reflexivity|].
  apply (keysToCamelCase_collision_last_wins
           [("a-b", JString "first"); ("x", JNull); ("a_b", JString "last")]
           "a-b" "a_b").
  - discriminate.
  - simpl. auto.
  - simpl. auto.
  - reflexivity.
Defined.

(** ** The request pipeline *)

(** The message of the structured error. *)
Lemma route_in_message (pathname : string) :
  JsString.occurs_in pathname
    ("Error fetching data from Sendblue on route "
       ++ double_quote ++ pathname ++ double_quote)%string.
Proof.
  exists ("Error fetching data from Sendblue on route " ++ double_quote)%string,
         double_quote.
  reflexivity.
Qed.

Lemma toUpperCase_method (m : Method) :
  JsString.toUpperCase (method_name m)
  = match m with post => "POST" | get => "GET" | delete => "DELETE" end.
Proof. destruct m; reflexivity. Qed.

Section ApiFacts.

Variable JSON_stringify : JSON -> string.
Variables publicKey secretKey : string.

(** One call, step by step: the request goes out, unless the platform
  refuses it, whatever happens next; a failed [fetch] or a body that is
  not JSON rejects the call with the platform's reason; otherwise the normalised body is returned on an [ok]
  status, and on any other status reading [message] throws on a [null]
  body and the structured error is thrown on every other body. *)
Lemma api_run (method : Method) (pathname : string) (payload : option JSON)
    (net : Network) :
  let request :=
    mkRequest (sendblueBaseUrl ++ pathname)%string
      (mkInit
         (JsString.toUpperCase (method_name method))
         (if truthy_payload payload
          then stringify JSON_stringify payload else None)
         [("sb-api-key-id", publicKey);
          ("sb-api-secret-key", secretKey);
          ("Content-Type", "application/json")]) in
  let net' :=
    mkNetwork (respond net)
      (if fetch_refuses (req_init request)
       then sent net else sent net ++ [request]) in
  api JSON_stringify publicKey secretKey method pathname payload net
  = match respond net request with
    | Rejected e => (Rejected (HostThrown e), net')
    | Fulfilled response =>
        match resp_json response with
        | Rejected e => (Rejected (HostThrown e), net')
        | Fulfilled parsed =>
            if resp_ok response
            then (Fulfilled (keysToCamelCase parsed), net')
            else
              match keysToCamelCase parsed with
              | JNull => (Rejected TypeErrorThrown, net')
              | responseBody =>
                  (Rejected
                     (SendblueThrown
                        (mkCustomError API_REQUEST_FAILURE
                           ("Error fetching data from Sendblue on route "
                              ++ double_quote ++ pathname ++ double_quote)%string
                           (mkCause (stringify JSON_stringify payload)
                              (mkCauseResponse (resp_status response)
                                 (own_message responseBody))))),
                   net')
              end
        end
    end.
Proof.
  intros request net'. unfold api, bind, fetch, await_host.
  fold request.
  destruct (respond net request) as [response | e]; [|reflexivity].
  destruct (resp_json response) as [parsed | e]; [|reflexivity].
  destruct (resp_ok response); [reflexivity|].
  cbn [negb]. cbv beta iota.
  destruct (keysToCamelCase parsed); reflexivity.
Qed.

End ApiFacts.

Lemma fetch_refuses_api (JSON_stringify : JSON -> string)
    (method : Method) (payload : option JSON)
    (headers : list (string * string)) :
  fetch_refuses
    (mkInit (JsString.toUpperCase (method_name method))
       (if truthy_payload payload
        then stringify JSON_stringify payload else None)
       headers)
  = match method with
    | get => truthy_payload payload
    | _ => false
    end.
Proof.
  destruct method; try reflexivity.
  unfold fetch_refuses. cbn [req_method req_body].
  destruct payload as [v|]; [|reflexivity]. cbn [truthy_payload].
  destruct (truthy v); reflexivity.
Qed.

(** C6 (as the code has it). The request of a call is addressed to the base
    origin followed by the path as given, has the verb in upper case, the
    two credential headers and the JSON content type, and has the
    serialised payload as body when the payload is truthy, and a [null]
    body when it is omitted or is [null], [false], [0] or the empty string.
    That request, and nothing else, goes out, whatever the answer; a [get]
    call with a truthy payload sends nothing, the platform refusing a [GET]
    request with a body. *)
Theorem api_outbound_request (JSON_stringify : JSON -> string)
    (publicKey secretKey : string) (method : Method) (pathname : string)
    (payload : option JSON) (net : Network) :
  let request :=
    mkRequest (sendblueBaseUrl ++ pathname)%string
      (mkInit
         (match method with
          | post => "POST"
          | get => "GET"
          | delete => "DELETE"
          end)
         (match payload with
          | Some v => if truthy v then Some (JSON_stringify v) else None
          | None => None
          end)
         [("sb-api-key-id", publicKey);
          ("sb-api-secret-key", secretKey);
          ("Content-Type", "application/json")]) in
  sent (snd (api JSON_stringify publicKey secretKey method pathname payload net))
  = sent net ++
      (if match method with
          | get => truthy_payload payload
          | _ => false
          end
       then [] else [request]).
Proof.
  intros request. rewrite api_run. cbv zeta. cbn [req_init].
  rewrite fetch_refuses_api.
  assert (Hreq :
    mkRequest (sendblueBaseUrl ++ pathname)%string
      (mkInit (JsString.toUpperCase (method_name method))
         (if truthy_payload payload
          then stringify JSON_stringify payload else None)
         [("sb-api-key-id", publicKey);
          ("sb-api-secret-key", secretKey);
          ("Content-Type", "application/json")])
    = request).
  { unfold request. rewrite toUpperCase_method.
    destruct payload as [v|]; reflexivity. }
  rewrite Hreq.
  assert (Hsent :
    (if match method with
        | get => truthy_payload payload
        | _ => false
        end
     then sent net else sent net ++ [request])
    = sent net ++
        (if match method with
            | get => truthy_payload payload
            | _ => false
            end
         then [] else [request])).
  { destruct (match method with
              | get => truthy_payload payload
              | _ => false
              end); [rewrite app_nil_r|]; reflexivity. }
  rewrite Hsent.
  destruct (respond net request) as [response | e]; [|reflexivity].
  destruct (resp_json response) as [parsed | e]; [|reflexivity].
  destruct (resp_ok response); [reflexivity|].
  destruct (keysToCamelCase parsed); reflexivity.
Qed.

(** C6 as stated fails. The payload [0] is provided and serialises to
    ["0"], but it is falsy, and the request goes out with a [null] body.
    And a [get] call with the payload [{"a": 1}] sends no request at all.
    The serialiser is given here by its value at each payload. *)
Lemma api_body_follows_truthiness :
  map (fun request => req_body (req_init request))
    (sent
       (snd
          (api (fun _ => "0") "pk" "sk" post "/api/send-message"
             (Some (JNumber (0 # 1)))
             (mkNetwork
                (fun _ => Fulfilled (mkResponse 200 (Fulfilled JNull))) []))))
  = [None]
  /\ map (fun request => req_body (req_init request))
       (sent
          (snd
             (api (fun _ => "0") "pk" "sk" post "/api/send-message"
                (Some (JNumber (0 # 1)))
                (mkNetwork
                   (fun _ => Fulfilled (mkResponse 200 (Fulfilled JNull))) []))))
     <> [Some "0"]
  /\ sent
       (snd
          (api (fun _ => "{a:1}") "pk" "sk" get "/accounts/contacts"
             (Some (JObject [("a", JNumber (1 # 1))]))
             (mkNetwork (fun _ => Rejected "TypeError") [])))
     = [].
Proof.
  split; [reflexivity|]. split; [|reflexivity].
  intros H. vm_compute in H. discriminate H.
Qed.

(** C5 (as the code has it). When the response body parses as JSON: on an
    [ok] status the call returns the normalised body and no error is made;
    on any other status, the body not being [null], the call throws the
    structured error named [API_REQUEST_FAILURE], whose message contains the
    path and whose cause holds the serialised payload, the status code and
    the [message] property of the normalised body; and for such a body the
    structured error is thrown if and only if the status is not [ok]. *)
Theorem api_structured_error_iff_not_ok (JSON_stringify : JSON -> string)
    (publicKey secretKey : string) (method : Method) (pathname : string)
    (payload : option JSON) (net : Network) (response : Response)
    (parsed : JSON) :
  (forall request, respond net request = Fulfilled response) ->
  resp_json response = Fulfilled parsed ->
  let outcome :=
    fst (api JSON_stringify publicKey secretKey method pathname payload net) in
  let message :=
    ("Error fetching data from Sendblue on route "
       ++ double_quote ++ pathname ++ double_quote)%string in
  (resp_ok response = true -> outcome = Fulfilled (keysToCamelCase parsed))
  /\ (resp_ok response = false -> parsed <> JNull ->
      outcome
      = Rejected
          (SendblueThrown
             (mkCustomError API_REQUEST_FAILURE message
                (mkCause (option_map JSON_stringify payload)
                   (mkCauseResponse (resp_status response)
                      (own_message (keysToCamelCase parsed)))))))
  /\ (parsed <> JNull ->
      ((exists e, outcome = Rejected (SendblueThrown e))
       <-> resp_ok response = false))
  /\ JsString.occurs_in pathname message.
Proof.
  intros Hresp Hjson outcome message. subst outcome.
  rewrite api_run. cbv zeta. rewrite Hresp, Hjson.
  assert (Hnull : parsed <> JNull -> keysToCamelCase parsed <> JNull).
  { intros Hp. destruct parsed; try congruence; discriminate. }
  split; [|split; [|split]].
  - intros Hok. rewrite Hok. reflexivity.
  - intros Hok Hp. rewrite Hok. apply Hnull in Hp.
    destruct (keysToCamelCase parsed); try reflexivity. congruence.
  - intros Hp. apply Hnull in Hp. destruct (resp_ok response).
    + simpl. split; [intros [e He]; discriminate He | discriminate].
    + split; [reflexivity|]. intros _.
      destruct (keysToCamelCase parsed); try (eexists; reflexivity).
      congruence.
  - apply route_in_message.
Qed.

Lemma api_structured_error_iff_not_ok_witness :
  fst
    (api (fun _ => "{}") "pk" "sk" post "/api/send-message" (Some (JObject []))
       (mkNetwork
          (fun _ =>
             Fulfilled
               (mkResponse 400
                  (Fulfilled (JObject [("message", JString "bad number")]))))
          []))
  = Rejected
      (SendblueThrown
         (mkCustomError "API_REQUEST_FAILURE"
            ("Error fetching data from Sendblue on route "
               ++ double_quote ++ "/api/send-message" ++ double_quote)%string
            (mkCause (Some "{}")
               (mkCauseResponse 400 (Some (JString "bad number")))))).
Proof.
  apply (proj1 (proj2
    (api_structured_error_iff_not_ok (fun _ => "{}") "pk" "sk" post
       "/api/send-message" (Some (JObject []))
       (mkNetwork
          (fun _ =>
             Fulfilled
               (mkResponse 400
                  (Fulfilled (JObject [("message", JString "bad number")]))))
          [])
       (mkResponse 400
          (Fulfilled (JObject [("message", JString "bad number")])))
       (JObject [("message", JString "bad number")])
       (fun _ => eq_refl) eq_refl))).
  - reflexivity.
  - discriminate.
Defined.

(** C5 as stated fails: a status 500 whose body is not JSON is a status that
    is not a success, and the call rejects with the parse failure, not with
    the structured error. *)
Lemma api_failure_status_without_structured_error :
  resp_ok (mkResponse 500 (Rejected "SyntaxError")) = false
  /\ fst
       (api (fun _ => "{}") "pk" "sk" get "/accounts/contacts" None
          (mkNetwork
             (fun _ => Fulfilled (mkResponse 500 (Rejected "SyntaxError")))
             []))
     = Rejected (HostThrown "SyntaxError")
  /\ forall e,
       fst
         (api (fun _ => "{}") "pk" "sk" get "/accounts/contacts" None
            (mkNetwork
               (fun _ => Fulfilled (mkResponse 500 (Rejected "SyntaxError")))
               []))
       <> Rejected (SendblueThrown e).
Proof.
  split; [reflexivity|]. split; [reflexivity|].
  intros e H. vm_compute in H. discriminate H.
Qed.

(** A [null] body on a status that is not [ok]: reading [message] throws
    before the structured error is made. *)
Lemma api_null_body_not_ok :
  fst
    (api (fun _ => "{}") "pk" "sk" get "/accounts/contacts" None
       (mkNetwork (fun _ => Fulfilled (mkResponse 500 (Fulfilled JNull))) []))
  = Rejected TypeErrorThrown.
Proof. reflexivity. Qed.

(** C9. The body is parsed and normalised before the status is looked at:
    when the body is not JSON the call rejects with the parse failure,
    whatever the status, and no structured error is made. *)
Theorem api_unparsable_body_rejects (JSON_stringify : JSON -> string)
    (publicKey secretKey : string) (method : Method) (pathname : string)
    (payload : option JSON) (net : Network) (response : Response)
    (e : HostError) :
  (forall request, respond net request = Fulfilled response) ->
  resp_json response = Rejected e ->
  fst (api JSON_stringify publicKey secretKey method pathname payload net)
  = Rejected (HostThrown e)
  /\ forall err,
       fst (api JSON_stringify publicKey secretKey method pathname payload net)
       <> Rejected (SendblueThrown err).
Proof.
  intros Hresp Hjson. rewrite api_run. cbv zeta. rewrite Hresp, Hjson.
  split; [reflexivity|]. intros err H. discriminate H.
Qed.

Lemma api_unparsable_body_rejects_witness :
  fst
    (api (fun _ => "{}") "pk" "sk" post "/api/send-message" (Some (JObject []))
       (mkNetwork
          (fun _ => Fulfilled (mkResponse 200 (Rejected "SyntaxError"))) []))
  = Rejected (HostThrown "SyntaxError")
  /\ fst
       (api (fun _ => "{}") "pk" "sk" post "/api/send-message"
          (Some (JObject []))
          (mkNetwork
             (fun _ => Fulfilled (mkResponse 502 (Rejected "SyntaxError"))) []))
     = Rejected (HostThrown "SyntaxError").
Proof.
  split.
  - apply (api_unparsable_body_rejects (fun _ => "{}") "pk" "sk" post
             "/api/send-message" (Some (JObject []))
             (mkNetwork
                (fun _ => Fulfilled (mkResponse 200 (Rejected "SyntaxError")))
                [])
             (mkResponse 200 (Rejected "SyntaxError")) "SyntaxError"
             (fun _ => eq_refl) eq_refl).
  - apply (api_unparsable_body_rejects (fun _ => "{}") "pk" "sk" post
             "/api/send-message" (Some (JObject []))
             (mkNetwork
                (fun _ => Fulfilled (mkResponse 502 (Rejected "SyntaxError")))
                [])
             (mkResponse 502 (Rejected "SyntaxError")) "SyntaxError"
             (fun _ => eq_refl) eq_refl).
Defined.

(* ================================================================= *)
(** * Further properties of the code *)

(** ** [toCamelCase] *)

Lemma count_matches_cons2 (c d : ascii) (rest : string) :
  count_matches (String c (String d rest))
  = ((if is_sep c && is_letter d then 1 else 0)
     + count_matches (String d rest))%nat.
Proof. reflexivity. Qed.

Lemma has_match_cons2 (c d : ascii) (rest : string) :
  has_match (String c (String d rest))
  = (is_sep c && is_letter d) || has_match (String d rest).
Proof. reflexivity. Qed.

Lemma match_at_head_letter (d : ascii) (rest : string) :
  is_letter d = true -> match_at_head (String d rest) = false.
Proof.
  intros Hd. simpl. rewrite (letter_not_sep d Hd). reflexivity.
Qed.

(** X2. Every match of the regular expression shortens the string by
    exactly one character: the length of the result and the number of
    matches add up to the length of the argument. *)
Theorem toCamelCase_length_count (s : string) :
  (String.length (toCamelCase s) + count_matches s = String.length s)%nat.
Proof.
  induction s as [|c|c d rest IHrest IHtail] using string_ind2.
  - reflexivity.
  - simpl. rewrite andb_false_r. reflexivity.
  - rewrite count_matches_cons2. destruct (is_sep c && is_letter d) eqn:E.
    + apply andb_true_iff in E. destruct E as [Hc Hd].
      rewrite (toCamelCase_match c d rest Hc Hd).
      change (count_matches (String d rest))
        with ((if match_at_head (String d rest) then 1 else 0)
              + count_matches rest)%nat.
      rewrite (match_at_head_letter d rest Hd).
      change (String.length (String (JsString.upper_char d) (toCamelCase rest)))
        with (S (String.length (toCamelCase rest))).
      change (String.length (String c (String d rest)))
        with (S (S (String.length rest))).
      lia.
    + rewrite (toCamelCase_copy c d rest E).
      change (String.length (String c (toCamelCase (String d rest))))
        with (S (String.length (toCamelCase (String d rest)))).
      change (String.length (String c (String d rest)))
        with (S (String.length (String d rest))).
      lia.
Qed.

Lemma count_matches_zero (s : string) :
  count_matches s = 0%nat <-> has_match s = false.
Proof.
  induction s as [|c tail IH].
  - split; reflexivity.
  - cbn [count_matches has_match]. rewrite orb_false_iff, <- IH.
    destruct (match_at_head (String c tail)); split.
    + intros H. discriminate H.
    + intros [H _]. discriminate H.
    + intros H. split; [reflexivity | exact H].
    + intros [_ H]. exact H.
Qed.

(** X1. The strings that [toCamelCase] returns unchanged are exactly those
    in which no hyphen or underscore stands directly before a letter. *)
Theorem toCamelCase_fixed_iff (s : string) :
  toCamelCase s = s <-> has_match s = false.
Proof.
  split.
  - intros H. apply count_matches_zero.
    pose proof (toCamelCase_length_count s) as L. rewrite H in L. lia.
  - apply no_match_fixed.
Qed.

Lemma toCamelCase_fixed_iff_witness : toCamelCase "status" = "status".
Proof.
  apply (proj2 (toCamelCase_fixed_iff "status")). reflexivity.
Defined.

(** A match is left in the result exactly when two separators in a row stand
    before a letter in the argument. *)
Lemma has_match_toCamelCase (s : string) :
  has_match (toCamelCase s) = has_sep_sep_letter s.
Proof.
  induction s as [|c|c d rest IHrest IHtail] using string_ind2.
  - reflexivity.
  - simpl. rewrite !andb_false_r. reflexivity.
  - change (has_sep_sep_letter (String c (String d rest)))
      with ((is_sep c && match_at_head (String d rest))
            || has_sep_sep_letter (String d rest)).
    destruct (is_sep c && is_letter d) eqn:E.
    + pose proof E as E'. apply andb_true_iff in E'. destruct E' as [Hc Hd].
      rewrite (toCamelCase_match c d rest Hc Hd).
      cbn [has_match match_at_head].
      rewrite (letter_not_sep _ (upper_char_letter d Hd)). cbn [andb orb].
      rewrite IHrest, (letter_not_sep d Hd). cbn [andb]. rewrite andb_false_r.
      cbn [orb has_sep_sep_letter]. rewrite (letter_not_sep d Hd).
      reflexivity.
    + rewrite (toCamelCase_copy c d rest E).
      cbn [has_match match_at_head].
      rewrite IHtail, next_is_letter_toCamelCase.
      f_equal. cbn [next_is_letter]. simpl in E.
      destruct (is_sep c); [|reflexivity]. simpl in E |- *. rewrite E.
      reflexivity.
Qed.

(** X3. A second pass of [toCamelCase] changes nothing exactly when no two
    separators in a row stand before a letter in the argument. *)
Theorem toCamelCase_stable_iff (k : string) :
  toCamelCase (toCamelCase k) = toCamelCase k
  <-> has_sep_sep_letter k = false.
Proof.
  rewrite <- has_match_toCamelCase. apply toCamelCase_fixed_iff.
Qed.

Lemma toCamelCase_stable_iff_witness :
  toCamelCase (toCamelCase "error_code") = toCamelCase "error_code".
Proof.
  apply (proj2 (toCamelCase_stable_iff "error_code")). reflexivity.
Defined.

(** X4. No result of [toCamelCase] has a separator directly before a
    lower-case letter; in particular no key is ever turned into
    [__proto__], the one name whose assignment to [{}] sets the prototype
    instead of a property. *)
Theorem toCamelCase_never_sep_lower (s : string) :
  has_sep_lower (toCamelCase s) = false /\ toCamelCase s <> "__proto__".
Proof.
  split.
  - apply toCamelCase_no_sep_lower.
  - intros H. pose proof (toCamelCase_no_sep_lower s) as Hs.
    rewrite H in Hs. discriminate Hs.
Qed.

(** X5. [toCamelCase] neither makes nor unmakes a name of digits: the result
    is all digits exactly when the argument is, and then it is the
    argument. Array-index names therefore stay what and where they are. *)
Theorem toCamelCase_digits (s : string) :
  all_digits (toCamelCase s) = all_digits s
  /\ (all_digits (toCamelCase s) = true -> toCamelCase s = s).
Proof.
  destruct (toCamelCase_all_digits s) as [Ha Hb]. split; [exact Ha|].
  rewrite Ha. exact Hb.
Qed.

Lemma toCamelCase_digits_witness :
  all_digits (toCamelCase "2024") = true /\ toCamelCase "2024" = "2024".
Proof.
  split; [reflexivity|].
  apply (proj2 (toCamelCase_digits "2024")). reflexivity.
Defined.

Lemma ends_with_sep_cons2 (c d : ascii) (rest : string) :
  ends_with_sep (String c (String d rest)) = ends_with_sep (String d rest).
Proof. reflexivity. Qed.

(** X6. [toCamelCase] works piece by piece: the result for [s ++ t] is the
    result for [s] followed by the result for [t], unless [s] ends with a
    separator and [t] begins with a letter. *)
Theorem toCamelCase_app (s t : string) :
  ends_with_sep s && next_is_letter t = false ->
  toCamelCase (s ++ t) = (toCamelCase s ++ toCamelCase t)%string.
Proof.
  induction s as [|c|c d rest IHrest IHtail] using string_ind2; intros H.
  - reflexivity.
  - cbn [ends_with_sep] in H. destruct t as [|d rest].
    + reflexivity.
    + change ((String c EmptyString ++ String d rest)%string)
        with (String c (String d rest)).
      rewrite (toCamelCase_copy c d rest H). reflexivity.
  - rewrite ends_with_sep_cons2 in H.
    change ((String c (String d rest) ++ t)%string)
      with (String c (String d (rest ++ t)%string)).
    destruct (is_sep c && is_letter d) eqn:E.
    + pose proof E as E'. apply andb_true_iff in E'. destruct E' as [Hc Hd].
      rewrite !(toCamelCase_match c d _ Hc Hd).
      cbn [String.append]. f_equal. apply IHrest.
      destruct rest as [|e rest'].
      * reflexivity.
      * exact H.
    + rewrite !(toCamelCase_copy c d _ E). cbn [String.append]. f_equal.
      apply (IHtail H).
Qed.

Lemma toCamelCase_app_witness :
  ends_with_sep "media_" && next_is_letter "_url" = false
  /\ toCamelCase ("media_" ++ "_url")
     = (toCamelCase "media_" ++ toCamelCase "_url")%string.
Proof.
  split; [reflexivity|].
  apply (toCamelCase_app "media_" "_url"). reflexivity.
Defined.

(** ** The type [SnakeToCamelCase] and the function [toCamelCase] *)

(** The equation of the conditional type. *)
Lemma SnakeToCamelCase_split (value : string) :
  SnakeToCamelCase value
  = match split_underscore value with
    | Some (char, rest) => (char ++ Capitalize (SnakeToCamelCase rest))%string
    | None => value
    end.
Proof.
  induction value as [|c tail IH].
  - reflexivity.
  - cbn [SnakeToCamelCase split_underscore].
    destruct (Ascii.eqb c underscore).
    + reflexivity.
    + rewrite IH. destruct (split_underscore tail) as [[char rest]|];
        reflexivity.
Qed.

Lemma snake_shaped_cons (c : ascii) (tail : string) :
  snake_shaped (String c tail)
  = (if Ascii.eqb c underscore then next_is_letter tail
     else if Ascii.eqb c hyphen then negb (next_is_letter tail)
     else true)
    && snake_shaped tail.
Proof. reflexivity. Qed.

Lemma is_sep_cases (c : ascii) :
  is_sep c = Ascii.eqb c underscore || Ascii.eqb c hyphen.
Proof. unfold is_sep. apply orb_comm. Qed.

Lemma letter_not_underscore (d : ascii) :
  is_letter d = true -> Ascii.eqb d underscore = false.
Proof.
  intros Hd. pose proof (letter_not_sep d Hd) as H.
  rewrite is_sep_cases in H. apply orb_false_iff in H. exact (proj1 H).
Qed.

(** X7. On a name of snake_case shape (every underscore directly before a
    letter, no hyphen directly before a letter) the type-level
    [SnakeToCamelCase] and the run-time [toCamelCase] give the same name. *)
Theorem SnakeToCamelCase_agrees (k : string) :
  snake_shaped k = true -> SnakeToCamelCase k = toCamelCase k.
Proof.
  induction k as [|c|c d rest IHrest IHtail] using string_ind2; intros H.
  - reflexivity.
  - rewrite snake_shaped_cons in H. cbn [SnakeToCamelCase toCamelCase].
    destruct (Ascii.eqb c underscore); [discriminate H | reflexivity].
  - rewrite snake_shaped_cons in H. apply andb_true_iff in H.
    destruct H as [Hhead Htail].
    cbn [next_is_letter] in Hhead.
    destruct (Ascii.eqb c underscore) eqn:Eu.
    + assert (Hc : is_sep c = true) by (rewrite is_sep_cases, Eu; reflexivity).
      rewrite (toCamelCase_match c d rest Hc Hhead).
      cbn [SnakeToCamelCase]. rewrite Eu, (letter_not_underscore d Hhead).
      cbn [Capitalize]. f_equal. apply IHrest.
      rewrite snake_shaped_cons in Htail. apply andb_true_iff in Htail.
      exact (proj2 Htail).
    + assert (E : is_sep c && is_letter d = false).
      { rewrite is_sep_cases, Eu. cbn [orb].
        destruct (Ascii.eqb c hyphen); [|reflexivity].
        apply negb_true_iff in Hhead. rewrite Hhead. reflexivity. }
      rewrite (toCamelCase_copy c d rest E).
      change (SnakeToCamelCase (String c (String d rest)))
        with (if Ascii.eqb c underscore
              then Capitalize (SnakeToCamelCase (String d rest))
              else String c (SnakeToCamelCase (String d rest))).
      rewrite Eu. f_equal. apply IHtail, Htail.
Qed.

Lemma SnakeToCamelCase_agrees_witness :
  snake_shaped "media_url" = true
  /\ SnakeToCamelCase "media_url" = toCamelCase "media_url".
Proof.
  split; [reflexivity|].
  apply (SnakeToCamelCase_agrees "media_url"). reflexivity.
Defined.

(** Where the shape is not that of snake_case the two differ: the type
    drops an underscore that the function keeps. *)
Lemma SnakeToCamelCase_differs :
  SnakeToCamelCase "status_1" = "status1" /\ toCamelCase "status_1" = "status_1"
  /\ SnakeToCamelCase "a__b" = "aB" /\ toCamelCase "a__b" = "a_B"
  /\ SnakeToCamelCase "a-b" = "a-b" /\ toCamelCase "a-b" = "aB".
Proof. repeat split. Qed.

Lemma NoDup_map_on {A B : Type} (f : A -> B) (l : list A) :
  (forall a b, In a l -> In b l -> f a = f b -> a = b) ->
  NoDup l -> NoDup (map f l).
Proof.
  induction l as [|x l IH]; intros Hinj Hnd.
  - constructor.
  - inversion Hnd as [|? ? Hx Hl]; subst. cbn [map]. constructor.
    + intros Hin. apply in_map_iff in Hin. destruct Hin as [y [Hy Hin]].
      assert (y = x) by (apply Hinj; simpl; auto). subst y. contradiction.
    + apply IH; [|exact Hl]. intros a b Ha Hb. apply Hinj; simpl; auto.
Qed.

(** An object whose keys are distinct names out of a list [declared] of
    snake_case shape, no two of which share a camelCase form, is normalised
    property by property, and its new names are those that
    [SnakeToCamelCase] gives. *)
Lemma keysToCamelCase_declared (declared : list string)
    (fields : list (string * JSON)) :
  NoDup (map toCamelCase declared) ->
  forallb snake_shaped declared = true ->
  NoDup (JsObject.keys fields) ->
  Forall (fun k => In k declared) (JsObject.keys fields) ->
  keysToCamelCase (JObject fields) = JObject (map normalize_entry fields)
  /\ JsObject.keys (map normalize_entry fields)
     = camelCased_keys (JsObject.keys fields).
Proof.
  intros Hinj Hshape Hnd Hin. rewrite Forall_forall in Hin.
  rewrite forallb_forall in Hshape. split.
  - apply keysToCamelCase_object_collision_free.
    apply NoDup_map_on; [|exact Hnd].
    intros a b Ha Hb Hab.
    exact (NoDup_map_injective toCamelCase declared a b Hinj
             (Hin a Ha) (Hin b Hb) Hab).
  - unfold JsObject.keys, camelCased_keys. rewrite !map_map.
    apply map_ext_in. intros [k x] He. cbn [normalize_entry fst].
    symmetry. apply SnakeToCamelCase_agrees. apply Hshape, Hin.
    apply (in_map fst fields (k, x) He).
Qed.

(** X8. A response object whose properties are distinct names of
    [SendMessageRawResponse], or of [SendTypingIndicatorRawResponse], is
    normalised without any collision, and the names of the result are those
    of the type it is cast to, [SendMessageResponse] or
    [SendTypingIndicatorResponse]: the image of its names under
    [SnakeToCamelCase], in the same order. *)
Theorem response_types_name_the_normalised_keys
    (fields : list (string * JSON)) :
  NoDup (JsObject.keys fields) ->
  Forall (fun k => In k SendMessageRawResponse_keys) (JsObject.keys fields)
  \/ Forall (fun k => In k SendTypingIndicatorRawResponse_keys)
       (JsObject.keys fields) ->
  exists out,
    keysToCamelCase (JObject fields) = JObject out
    /\ JsObject.keys out = camelCased_keys (JsObject.keys fields)
    /\ List.length out = List.length fields.
Proof.
  intros Hnd Hdecl. exists (map normalize_entry fields).
  assert (H : keysToCamelCase (JObject fields)
              = JObject (map normalize_entry fields)
              /\ JsObject.keys (map normalize_entry fields)
                 = camelCased_keys (JsObject.keys fields)).
  { destruct Hdecl as [Hd | Hd].
    - apply (keysToCamelCase_declared SendMessageRawResponse_keys);
        [apply JsObjectFacts.distinct_NoDup; reflexivity
        |reflexivity | exact Hnd | exact Hd].
    - apply (keysToCamelCase_declared SendTypingIndicatorRawResponse_keys);
        [apply JsObjectFacts.distinct_NoDup; reflexivity
        |reflexivity | exact Hnd | exact Hd]. }
  destruct H as [H1 H2]. split; [exact H1|]. split; [exact H2|].
  apply length_map.
Qed.

Lemma response_types_name_the_normalised_keys_witness :
  exists out,
    keysToCamelCase
      (JObject [("status", JString "SENT"); ("is_outbound", JBool true);
                ("error_code", JNull)])
    = JObject out
    /\ JsObject.keys out
       = camelCased_keys ["status"; "is_outbound"; "error_code"]
    /\ List.length out = 3%nat.
Proof.
  apply (response_types_name_the_normalised_keys
           [("status", JString "SENT"); ("is_outbound", JBool true);
            ("error_code", JNull)]).
  - apply JsObjectFacts.distinct_NoDup. reflexivity.
  - left. repeat constructor; simpl; tauto.
Defined.

(** ** [keysToCamelCase]: reading the result *)

Lemma get_not_in {A : Type} (l : list (string * A)) (q : string) :
  ~ In q (JsObject.keys l) -> JsObject.get l q = None.
Proof.
  induction l as [|[k v] l IH]; simpl; intros H.
  - reflexivity.
  - destruct (String.eqb k q) eqn:E.
    + apply String.eqb_eq in E. tauto.
    + apply IH. tauto.
Qed.

Lemma last_where_none {A : Type} (p : string -> bool) (l : list (string * A)) :
  (forall k, In k (JsObject.keys l) -> p k = false) ->
  JsObject.last_where p l = None.
Proof.
  induction l as [|[k v] l IH]; simpl; intros H.
  - reflexivity.
  - rewrite IH by (intros k0 Hk0; apply H; auto).
    rewrite (H k) by auto. reflexivity.
Qed.

(** In an object, where names are distinct, the last property whose name
    satisfies a test that only [k] can pass is the property [k]. *)
Lemma last_where_only {A : Type} (p : string -> bool)
    (l : list (string * A)) (k : string) :
  NoDup (JsObject.keys l) ->
  p k = true ->
  (forall k2, In k2 (JsObject.keys l) -> p k2 = true -> k2 = k) ->
  JsObject.last_where p l = JsObject.get l k.
Proof.
  induction l as [|[k1 v] l IH]; simpl; intros Hnd Hk Honly.
  - reflexivity.
  - inversion Hnd as [|? ? Hk1 Hl]; subst.
    rewrite IH by (auto).
    destruct (String.eqb k1 k) eqn:E.
    + apply String.eqb_eq in E. subst k1.
      rewrite (get_not_in l k Hk1), Hk. reflexivity.
    + destruct (JsObject.get l k); [reflexivity|].
      destruct (p k1) eqn:Ep; [|reflexivity].
      assert (k1 = k) by (apply Honly; auto). subst k1.
      rewrite String.eqb_refl in E. discriminate E.
Qed.

(** Reading any name from a normalised object. *)
Lemma keysToCamelCase_get_last (fields : list (string * JSON)) (q : string) :
  JsObject.get (JsObject.assign_all [] (map normalize_entry fields)) q
  = option_map keysToCamelCase
      (JsObject.last_where (fun k => String.eqb (toCamelCase k) q) fields).
Proof.
  rewrite JsObjectFacts.get_assign_all. unfold normalize_entry.
  rewrite (JsObjectFacts.last_where_map toCamelCase keysToCamelCase
             (fun k => String.eqb k q) fields).
  destruct (JsObject.last_where (fun k => String.eqb (toCamelCase k) q) fields);
    reflexivity.
Qed.

(** X9. Provided no other key of the input has the same camelCase form as
    [k]: the normalised object has an own property named by the camelCase
    form of [k] exactly when the input has an own property [k], and its
    value is then the normalised value of that property. (Own properties
    only: what the result inherits from [Object.prototype] is not spoken
    of.) *)
Theorem keysToCamelCase_get (fields : list (string * JSON)) (k : string) :
  NoDup (JsObject.keys fields) ->
  (forall k2, In k2 (JsObject.keys fields) ->
              toCamelCase k2 = toCamelCase k -> k2 = k) ->
  exists out,
    keysToCamelCase (JObject fields) = JObject out
    /\ JsObject.get out (toCamelCase k)
       = option_map keysToCamelCase (JsObject.get fields k).
Proof.
  intros Hnd Honly.
  exists (JsObject.assign_all [] (map normalize_entry fields)).
  split; [apply keysToCamelCase_object|].
  rewrite keysToCamelCase_get_last. f_equal.
  apply last_where_only.
  - exact Hnd.
  - apply String.eqb_refl.
  - intros k2 Hin Heq. apply Honly; [exact Hin|].
    apply String.eqb_eq. exact Heq.
Qed.

Lemma keysToCamelCase_get_witness :
  exists out,
    keysToCamelCase
      (JObject [("media_url", JString "u"); ("status", JString "SENT")])
    = JObject out
    /\ JsObject.get out (toCamelCase "media_url")
       = option_map keysToCamelCase
           (JsObject.get
              [("media_url", JString "u"); ("status", JString "SENT")]
              "media_url").
Proof.
  apply (keysToCamelCase_get
           [("media_url", JString "u"); ("status", JString "SENT")]
           "media_url").
  - apply JsObjectFacts.distinct_NoDup. reflexivity.
  - intros k2 [<- | [<- | []]] H; [reflexivity | discriminate H].
Defined.

Lemma is_upper_upper_char (d : ascii) :
  is_letter d = true -> JsString.is_upper (JsString.upper_char d) = true.
Proof.
  ascii_cases d; intros H; vm_compute in H; try discriminate H; reflexivity.
Qed.

(** Only a name itself can have a camelCase form without upper-case
    letters. *)
Lemma toCamelCase_eq_no_upper (k : string) :
  forall q, has_upper q = false -> toCamelCase k = q -> k = q.
Proof.
  induction k as [|c|c d rest IHrest IHtail] using string_ind2;
    intros q Hq Heq.
  - exact Heq.
  - exact Heq.
  - destruct (is_sep c && is_letter d) eqn:E.
    + apply andb_true_iff in E. destruct E as [Hc Hd].
      rewrite (toCamelCase_match c d rest Hc Hd) in Heq. subst q.
      cbn [has_upper] in Hq. rewrite (is_upper_upper_char d Hd) in Hq.
      discriminate Hq.
    + rewrite (toCamelCase_copy c d rest E) in Heq. subst q.
      cbn [has_upper] in Hq. apply orb_false_iff in Hq.
      f_equal. apply IHtail with (q := toCamelCase (String d rest)).
      * exact (proj2 Hq).
      * reflexivity.
Qed.

(** Reading a plain name from a normalised object, as a fact about the
    property list. *)
Lemma get_plain_name (fields : list (string * JSON)) (q : string) :
  NoDup (JsObject.keys fields) ->
  has_upper q = false ->
  has_match q = false ->
  JsObject.get (JsObject.assign_all [] (map normalize_entry fields)) q
  = option_map keysToCamelCase (JsObject.get fields q).
Proof.
  intros Hnd Hup Hm. pose proof (no_match_fixed q Hm) as Hfix.
  rewrite keysToCamelCase_get_last. f_equal.
  apply last_where_only.
  - exact Hnd.
  - rewrite Hfix. apply String.eqb_refl.
  - intros k2 _ Heq. apply String.eqb_eq in Heq.
    apply (toCamelCase_eq_no_upper k2 q Hup Heq).
Qed.

(** X10. A name without upper-case letters and without a separator before
    a letter, such as [message], [status] or [number], is read from the
    normalised object exactly as from the input: no other key can collide
    with it, and it is [undefined] after normalisation exactly when it was
    before. *)
Theorem keysToCamelCase_get_plain_name (fields : list (string * JSON))
    (q : string) :
  NoDup (JsObject.keys fields) ->
  has_upper q = false ->
  has_match q = false ->
  exists out,
    keysToCamelCase (JObject fields) = JObject out
    /\ JsObject.get out q = option_map keysToCamelCase (JsObject.get fields q).
Proof.
  intros Hnd Hup Hm.
  exists (JsObject.assign_all [] (map normalize_entry fields)).
  split; [apply keysToCamelCase_object|].
  apply get_plain_name; assumption.
Qed.

Lemma keysToCamelCase_get_plain_name_witness :
  exists out,
    keysToCamelCase
      (JObject [("error_code", JNumber (7 # 1)); ("message", JString "bad")])
    = JObject out
    /\ JsObject.get out "message"
       = option_map keysToCamelCase
           (JsObject.get
              [("error_code", JNumber (7 # 1)); ("message", JString "bad")]
              "message").
Proof.
  apply (keysToCamelCase_get_plain_name
           [("error_code", JNumber (7 # 1)); ("message", JString "bad")]
           "message").
  - apply JsObjectFacts.distinct_NoDup. reflexivity.
  - reflexivity.
  - reflexivity.
Defined.

(** X11. The snake_case and kebab-case names are gone from the result: a
    name in which a separator stands before a lower-case letter is never an
    own property of a normalised object, whatever the input; it is not
    among [Object.keys] of the result. (Own properties only: a name such
    as [__proto__] is still inherited from [Object.prototype].) *)
Theorem keysToCamelCase_no_own_snake_name (fields : list (string * JSON))
    (q : string) :
  has_sep_lower q = true ->
  exists out,
    keysToCamelCase (JObject fields) = JObject out
    /\ existsb (String.eqb q) (JsObject.keys out) = false
    /\ JsObject.get out q = None.
Proof.
  intros Hq.
  exists (JsObject.assign_all [] (map normalize_entry fields)).
  split; [apply keysToCamelCase_object|].
  assert (Hne : forall k, toCamelCase k <> q).
  { intros k Heq. pose proof (toCamelCase_no_sep_lower k) as Hk.
    rewrite Heq in Hk. congruence. }
  split.
  - destruct (existsb (String.eqb q)
                (JsObject.keys
                   (JsObject.assign_all [] (map normalize_entry fields))))
      eqn:E; [|reflexivity].
    apply existsb_exists in E. destruct E as [k' [Hin Heq]].
    apply String.eqb_eq in Heq. subst k'.
    apply in_map_iff in Hin. destruct Hin as [e [Hfst He]].
    destruct (normalized_fields fields) as [_ Hall].
    destruct (Hall e He) as [k [x [_ ->]]].
    cbn [normalize_entry fst] in Hfst. exfalso. exact (Hne k Hfst).
  - rewrite keysToCamelCase_get_last.
    rewrite last_where_none; [reflexivity|].
    intros k _. apply String.eqb_neq. apply Hne.
Qed.

Lemma keysToCamelCase_no_own_snake_name_witness :
  exists out,
    keysToCamelCase (JObject [("media_url", JString "u")]) = JObject out
    /\ existsb (String.eqb "media_url") (JsObject.keys out) = false
    /\ JsObject.get out "media_url" = None.
Proof.
  apply (keysToCamelCase_no_own_snake_name [("media_url", JString "u")]
           "media_url").
  reflexivity.
Defined.

Lemma all_keys_converted (v : JSON) :
  all_keys (fun k => negb (has_sep_lower k)) (keysToCamelCase v) = true.
Proof.
  unfold all_keys. apply forallb_forall. intros q Hq.
  apply keys_deep_normalized in Hq. apply in_map_iff in Hq.
  destruct Hq as [k [<- _]].
  rewrite toCamelCase_no_sep_lower. reflexivity.
Qed.

(** X12. At every depth of a normalised value, no key has a separator
    directly before a lower-case letter, and no key is [__proto__]. *)
Theorem keysToCamelCase_all_keys_converted (v : JSON) :
  all_keys (fun k => negb (has_sep_lower k)) (keysToCamelCase v) = true
  /\ all_keys (fun k => negb (String.eqb k "__proto__")) (keysToCamelCase v)
     = true.
Proof.
  split; [apply all_keys_converted|].
  pose proof (all_keys_converted v) as H. unfold all_keys in *.
  rewrite forallb_forall in H. apply forallb_forall. intros q Hq.
  apply H in Hq. apply negb_true_iff in Hq. apply negb_true_iff.
  apply String.eqb_neq. intros ->. discriminate Hq.
Qed.

(** ** [keysToCamelCase]: depth and order *)

Lemma max_list_bound {A : Type} (f : A -> nat) (l : list A) (m : nat) :
  (forall x, In x l -> (f x <= m)%nat) ->
  (fold_right Nat.max 0%nat (map f l) <= m)%nat.
Proof.
  induction l as [|x l IH]; simpl; intros H.
  - lia.
  - apply Nat.max_lub; [apply H; auto | apply IH; intros y Hy; apply H; auto].
Qed.

Lemma max_list_member {A : Type} (f : A -> nat) (l : list A) (x : A) :
  In x l -> (f x <= fold_right Nat.max 0%nat (map f l))%nat.
Proof.
  induction l as [|y l IH]; simpl; intros H; [contradiction|].
  destruct H as [-> | H].
  - apply Nat.le_max_l.
  - etransitivity; [apply IH, H | apply Nat.le_max_r].
Qed.

(** X13. Normalising never deepens a value, collisions or not. *)
Theorem keysToCamelCase_depth_le (v : JSON) :
  (depth (keysToCamelCase v) <= depth v)%nat.
Proof.
  induction v as [ | b | n | s | items IH | fields IH] using JSON_ind;
    try apply Nat.le_refl.
  - rewrite keysToCamelCase_array. cbn [depth]. apply le_n_S.
    rewrite map_map. apply max_list_bound. intros x Hx.
    rewrite Forall_forall in IH. etransitivity; [apply IH, Hx|].
    apply (max_list_member depth items x Hx).
  - rewrite keysToCamelCase_object. cbn [depth]. apply le_n_S.
    apply max_list_bound. intros e He.
    destruct (normalized_fields fields) as [_ Hall].
    destruct (Hall e He) as [k [x [Hin ->]]].
    cbn [normalize_entry snd]. rewrite Forall_forall in IH.
    etransitivity; [apply (IH (k, x) Hin)|].
    apply (max_list_member (fun e => depth (snd e)) fields (k, x) Hin).
Qed.

Lemma keys_set {A : Type} (o : list (string * A)) (k : string) (v : A) :
  JsObject.keys (JsObject.set o k v)
  = if existsb (String.eqb k) (JsObject.keys o)
    then JsObject.keys o else JsObject.keys o ++ [k].
Proof.
  induction o as [|[k' v'] o IH]; simpl.
  - reflexivity.
  - rewrite (String.eqb_sym k k'). destruct (String.eqb k' k); simpl.
    + reflexivity.
    + fold (JsObject.keys (JsObject.set o k v)). fold (JsObject.keys o).
      rewrite IH. destruct (existsb (String.eqb k) (JsObject.keys o));
        reflexivity.
Qed.

Lemma keys_assign_all {A : Type} (l : list (string * A)) :
  forall o,
    JsObject.keys (JsObject.assign_all o l)
    = fold_left
        (fun seen k =>
           if existsb (String.eqb k) seen then seen else seen ++ [k])
        (JsObject.keys l) (JsObject.keys o).
Proof.
  induction l as [|[k v] l IH]; intros o.
  - reflexivity.
  - rewrite JsObjectFacts.assign_all_cons, IH, keys_set. reflexivity.
Qed.

(** X14. The properties of a normalised object come in the order in which
    their names first occur among the camelCase forms of the input's keys:
    a colliding key takes the place of the first of its kind (and, by C8,
    the value of the last). *)
Theorem keysToCamelCase_key_order (fields : list (string * JSON)) :
  exists out,
    keysToCamelCase (JObject fields) = JObject out
    /\ JsObject.keys out
       = first_occurrences (map toCamelCase (JsObject.keys fields)).
Proof.
  exists (JsObject.assign_all [] (map normalize_entry fields)).
  split; [apply keysToCamelCase_object|].
  rewrite keys_assign_all. unfold first_occurrences, JsObject.keys.
  rewrite !map_map. reflexivity.
Qed.

(** ** [keysToCamelCase]: the whole value *)

Lemma flat_map_ext_in {A B : Type} (f g : A -> list B) (l : list A) :
  (forall x, In x l -> f x = g x) -> flat_map f l = flat_map g l.
Proof.
  induction l as [|x l IH]; intros H.
  - reflexivity.
  - cbn [flat_map]. rewrite (H x) by (left; reflexivity).
    rewrite IH by (intros y Hy; apply H; right; exact Hy). reflexivity.
Qed.

(** An object is given by its names, in order, and the value under each. *)
Lemma entries_from_keys (o : list (string * JSON)) :
  NoDup (JsObject.keys o) ->
  flat_map
    (fun q => match JsObject.get o q with Some x => [(q, x)] | None => [] end)
    (JsObject.keys o)
  = o.
Proof.
  induction o as [|[k v] o IH]; intros Hnd.
  - reflexivity.
  - inversion Hnd as [|? ? Hk Ho]; subst.
    cbn [JsObject.keys map fst flat_map JsObject.get].
    rewrite String.eqb_refl. cbn [app]. f_equal.
    rewrite <- (IH Ho) at 2. apply flat_map_ext_in. intros q Hq.
    destruct (String.eqb k q) eqn:E; [|reflexivity].
    apply String.eqb_eq in E. subst q. contradiction.
Qed.

(** A run of assignments into an empty object leaves what
    [last_write_wins] describes. *)
Lemma assign_all_last_write_wins (entries : list (string * JSON)) :
  JsObject.assign_all [] entries = last_write_wins entries.
Proof.
  pose proof (JsObjectFacts.NoDup_keys_assign_all entries []
                (NoDup_nil string)) as Hnd.
  rewrite <- (entries_from_keys _ Hnd). unfold last_write_wins.
  rewrite keys_assign_all.
  change (fold_left
            (fun seen k =>
               if existsb (String.eqb k) seen then seen else seen ++ [k])
            (JsObject.keys entries) (JsObject.keys []))
    with (first_occurrences (JsObject.keys entries)).
  apply flat_map_ext_in. intros q _.
  rewrite JsObjectFacts.get_assign_all.
  destruct (JsObject.last_where (fun k => String.eqb k q) entries);
    reflexivity.
Qed.

Lemma keysToCamelCase_normalize_spec (v : JSON) :
  keysToCamelCase v = normalize_spec v.
Proof.
  induction v as [ | b | n | s | items IH | fields IH] using JSON_ind;
    try reflexivity.
  - rewrite keysToCamelCase_array. cbn [normalize_spec]. f_equal.
    apply map_ext_in. intros x Hx. rewrite Forall_forall in IH.
    apply IH, Hx.
  - rewrite keysToCamelCase_object. cbn [normalize_spec]. f_equal.
    rewrite assign_all_last_write_wins. f_equal.
    apply map_ext_in. intros e He. unfold normalize_entry. f_equal.
    rewrite Forall_forall in IH. apply (IH e He).
Qed.

(** C7. [keysToCamelCase] is a total function on JSON values, with no error
    result, and it recurses through the whole value: for every value its
    result is the value that [normalize_spec] describes, in which, at every
    depth, every array holds the normalised elements in order and every
    object holds, under each key in camelCase, the normalised value. Depth
    is not bounded: the tower of [n] arrays of objects, of depth [2 * n], is
    normalised down to its innermost key for every [n]. The call stack of
    the engine is not part of the model. *)
Theorem keysToCamelCase_recurses_fully :
  (forall v, keysToCamelCase v = normalize_spec v)
  /\ (forall v,
        Forall (fun q => In q (map toCamelCase (keys_deep v)))
          (keys_deep (keysToCamelCase v)))
  /\ (forall key n,
        depth (tower key n) = (2 * n)%nat
        /\ keysToCamelCase (tower key n) = tower (toCamelCase key) n).
Proof.
  split; [exact keysToCamelCase_normalize_spec|]. split.
  - intros v. apply Forall_forall. apply keys_deep_normalized.
  - intros key n. split; [apply depth_tower | apply keysToCamelCase_tower].
Qed.

(** ** [api]: the other ways a call ends *)

Section ApiOutcomes.

Variable JSON_stringify : JSON -> string.
Variables publicKey secretKey : string.

Local Abbreviation call := (api JSON_stringify publicKey secretKey).

(** The headers of every request. *)
Local Abbreviation headers :=
  [("sb-api-key-id", publicKey);
   ("sb-api-secret-key", secretKey);
   ("Content-Type", "application/json")].

Lemma api_sent (method : Method) (pathname : string) (payload : option JSON)
    (net : Network) :
  sent (snd (call method pathname payload net))
  = if match method with
       | get => truthy_payload payload
       | _ => false
       end
    then sent net
    else
      sent net ++
        [mkRequest (sendblueBaseUrl ++ pathname)%string
           (mkInit (JsString.toUpperCase (method_name method))
              (if truthy_payload payload
               then stringify JSON_stringify payload else None)
              headers)].
Proof.
  rewrite api_run. cbv zeta. cbn [req_init]. rewrite fetch_refuses_api.
  destruct (respond net _) as [response | e]; [|reflexivity].
  destruct (resp_json response) as [parsed | e]; [|reflexivity].
  destruct (resp_ok response); [reflexivity|].
  destruct (keysToCamelCase parsed); reflexivity.
Qed.

Lemma api_not_ok (method : Method) (pathname : string)
    (payload : option JSON) (net : Network) (response : Response)
    (parsed : JSON) :
  (forall request, respond net request = Fulfilled response) ->
  resp_json response = Fulfilled parsed ->
  resp_ok response = false ->
  parsed <> JNull ->
  fst (call method pathname payload net)
  = Rejected
      (SendblueThrown
         (mkCustomError API_REQUEST_FAILURE
            ("Error fetching data from Sendblue on route "
               ++ double_quote ++ pathname ++ double_quote)%string
            (mkCause (stringify JSON_stringify payload)
               (mkCauseResponse (resp_status response)
                  (own_message (keysToCamelCase parsed)))))).
Proof.
  intros Hresp Hjson Hok Hp. rewrite api_run. cbv zeta.
  rewrite Hresp, Hjson, Hok.
  assert (Hn : keysToCamelCase parsed <> JNull).
  { destruct parsed; try congruence; discriminate. }
  destruct (keysToCamelCase parsed); try reflexivity. congruence.
Qed.

End ApiOutcomes.

(** X15. When [fetch] itself fails (no response at all), the call rejects
    with the reason [fetch] gave: the failure is not wrapped in a
    [SendblueError]. *)
Theorem api_fetch_failure (JSON_stringify : JSON -> string)
    (publicKey secretKey : string) (method : Method) (pathname : string)
    (payload : option JSON) (net : Network) (e : HostError) :
  (forall request, respond net request = Rejected e) ->
  fst (api JSON_stringify publicKey secretKey method pathname payload net)
  = Rejected (HostThrown e).
Proof.
  intros H. rewrite api_run. cbv zeta. rewrite H. reflexivity.
Qed.

Lemma api_fetch_failure_witness :
  fst
    (api (fun _ => "{}") "pk" "sk" get "/accounts/contacts" None
       (mkNetwork (fun _ => Rejected "TypeError: fetch failed") []))
  = Rejected (HostThrown "TypeError: fetch failed").
Proof.
  apply (api_fetch_failure (fun _ => "{}") "pk" "sk" get "/accounts/contacts"
           None (mkNetwork (fun _ => Rejected "TypeError: fetch failed") [])
           "TypeError: fetch failed").
  intros request. reflexivity.
Defined.

(** X16. A response with a status that is not [ok] and the JSON body [null]
    makes the call reject with the [TypeError] of reading [message] from
    [null]: no [SendblueError] is made and the status code is lost. *)
Theorem api_null_body_type_error (JSON_stringify : JSON -> string)
    (publicKey secretKey : string) (method : Method) (pathname : string)
    (payload : option JSON) (net : Network) (response : Response) :
  (forall request, respond net request = Fulfilled response) ->
  resp_json response = Fulfilled JNull ->
  resp_ok response = false ->
  fst (api JSON_stringify publicKey secretKey method pathname payload net)
  = Rejected TypeErrorThrown.
Proof.
  intros Hresp Hjson Hok. rewrite api_run. cbv zeta.
  rewrite Hresp, Hjson, Hok. reflexivity.
Qed.

Lemma api_null_body_type_error_witness :
  fst
    (api (fun _ => "{}") "pk" "sk" delete "/accounts/contacts/42" None
       (mkNetwork (fun _ => Fulfilled (mkResponse 404 (Fulfilled JNull))) []))
  = Rejected TypeErrorThrown.
Proof.
  apply (api_null_body_type_error (fun _ => "{}") "pk" "sk" delete
           "/accounts/contacts/42" None
           (mkNetwork (fun _ => Fulfilled (mkResponse 404 (Fulfilled JNull)))
              [])
           (mkResponse 404 (Fulfilled JNull))).
  - intros request. reflexivity.
  - reflexivity.
  - reflexivity.
Defined.

(** X17. When the status is not [ok] and the body is a JSON object, the
    [message] in the cause of the [SendblueError] is the normalised value
    of the body's own [message] property, and [undefined] when the body has
    none: no other property of the body, whatever its name, can take its
    place. *)
Theorem api_cause_message (JSON_stringify : JSON -> string)
    (publicKey secretKey : string) (method : Method) (pathname : string)
    (payload : option JSON) (net : Network) (response : Response)
    (fields : list (string * JSON)) :
  (forall request, respond net request = Fulfilled response) ->
  resp_json response = Fulfilled (JObject fields) ->
  NoDup (JsObject.keys fields) ->
  resp_ok response = false ->
  exists e,
    fst (api JSON_stringify publicKey secretKey method pathname payload net)
    = Rejected (SendblueThrown e)
    /\ cause_message (cause_response (error_cause e))
       = option_map keysToCamelCase (JsObject.get fields "message")
    /\ cause_code (cause_response (error_cause e)) = resp_status response.
Proof.
  intros Hresp Hjson Hnd Hok.
  rewrite (api_not_ok JSON_stringify publicKey secretKey method pathname
             payload net response (JObject fields) Hresp Hjson Hok)
    by discriminate.
  eexists. split; [reflexivity|]. cbn [error_cause cause_response
    cause_message cause_code]. split; [|reflexivity].
  rewrite keysToCamelCase_object. cbn [own_message].
  apply get_plain_name; [exact Hnd | reflexivity | reflexivity].
Qed.

Lemma api_cause_message_witness :
  exists e,
    fst
      (api (fun _ => "{}") "pk" "sk" post "/api/send-message"
         (Some (JObject []))
         (mkNetwork
            (fun _ =>
               Fulfilled
                 (mkResponse 401
                    (Fulfilled
                       (JObject [("error_message", JString "no key")]))))
            []))
    = Rejected (SendblueThrown e)
    /\ cause_message (cause_response (error_cause e))
       = option_map keysToCamelCase
           (JsObject.get [("error_message", JString "no key")] "message")
    /\ cause_code (cause_response (error_cause e)) = 401%Z.
Proof.
  apply (api_cause_message (fun _ => "{}") "pk" "sk" post "/api/send-message"
           (Some (JObject []))
           (mkNetwork
              (fun _ =>
                 Fulfilled
                   (mkResponse 401
                      (Fulfilled
                         (JObject [("error_message", JString "no key")]))))
              [])
           (mkResponse 401
              (Fulfilled (JObject [("error_message", JString "no key")])))
           [("error_message", JString "no key")]).
  - intros request. reflexivity.
  - reflexivity.
  - apply JsObjectFacts.distinct_NoDup. reflexivity.
  - reflexivity.
Defined.

(** X22. What a call returns on an [ok] status has been normalised all the
    way down: at no depth does a key of the result have a separator
    directly before a lower-case letter. *)
Theorem api_result_keys_converted (JSON_stringify : JSON -> string)
    (publicKey secretKey : string) (method : Method) (pathname : string)
    (payload : option JSON) (net : Network) (response : Response)
    (parsed : JSON) :
  (forall request, respond net request = Fulfilled response) ->
  resp_json response = Fulfilled parsed ->
  resp_ok response = true ->
  exists result,
    fst (api JSON_stringify publicKey secretKey method pathname payload net)
    = Fulfilled result
    /\ all_keys (fun k => negb (has_sep_lower k)) result = true.
Proof.
  intros Hresp Hjson Hok. exists (keysToCamelCase parsed).
  rewrite api_run. cbv zeta. rewrite Hresp, Hjson, Hok.
  split; [reflexivity | apply all_keys_converted].
Qed.

Lemma api_result_keys_converted_witness :
  exists result,
    fst
      (api (fun _ => "{}") "pk" "sk" get "/accounts/contacts" None
         (mkNetwork
            (fun _ =>
               Fulfilled
                 (mkResponse 200
                    (Fulfilled
                       (JArray
                          [JObject
                             [("first_name", JString "Ada");
                              ("phone-number", JString "+1555")]]))))
            []))
    = Fulfilled result
    /\ all_keys (fun k => negb (has_sep_lower k)) result = true.
Proof.
  apply (api_result_keys_converted (fun _ => "{}") "pk" "sk" get
           "/accounts/contacts" None
           (mkNetwork
              (fun _ =>
                 Fulfilled
                   (mkResponse 200
                      (Fulfilled
                         (JArray
                            [JObject
                               [("first_name", JString "Ada");
                                ("phone-number", JString "+1555")]]))))
              [])
           (mkResponse 200
              (Fulfilled
                 (JArray
                    [JObject
                       [("first_name", JString "Ada");
                        ("phone-number", JString "+1555")]])))
           (JArray
              [JObject
                 [("first_name", JString "Ada");
                  ("phone-number", JString "+1555")]])).
  - intros request. reflexivity.
  - reflexivity.
  - reflexivity.
Defined.

(** ** The endpoint methods *)

(** [return await p] settles as [p] does. *)
Lemma bind_ret {A : Type} (m : Async A) (net : Network) :
  bind m ret net = m net.
Proof.
  unfold bind, ret. destruct (m net) as [[a | e] net']; reflexivity.
Qed.

Section EndpointFacts.

Variable JSON_stringify : JSON -> string.
Variables publicKey secretKey : string.

(** What a method puts on the wire: one request, with this verb, path and
    body. *)
Local Abbreviation wire verb pathname body :=
  [mkRequest (sendblueBaseUrl ++ pathname)%string
     (mkInit verb body
        [("sb-api-key-id", publicKey);
         ("sb-api-secret-key", secretKey);
         ("Content-Type", "application/json")])].

(** X19. The five methods that take no payload send exactly one request
    each, without a body, by [GET] ([DELETE] for [deleteContact]), and the
    identifier or number they are given goes into the path or the query
    string as it is, unencoded. *)
Theorem bodiless_methods_on_the_wire (net : Network) :
  (forall id,
      sent (snd (getMessage JSON_stringify publicKey secretKey id net))
      = sent net ++ wire "GET" ("/api/message/" ++ id) None)
  /\ (forall number,
        sent (snd (lookup JSON_stringify publicKey secretKey number net))
        = sent net ++ wire "GET" ("/api/evaluate-service?number=" ++ number)
                        None)
  /\ sent (snd (getContacts JSON_stringify publicKey secretKey net))
     = sent net ++ wire "GET" "/accounts/contacts" None
  /\ (forall id,
        sent (snd (deleteContact JSON_stringify publicKey secretKey id net))
        = sent net ++ wire "DELETE" ("/accounts/contacts/" ++ id) None)
  /\ (forall contactId,
        sent
          (snd (getMessages JSON_stringify publicKey secretKey contactId net))
        = sent net ++ wire "GET" ("/accounts/messages?cid=" ++ contactId) None).
Proof.
  unfold getMessage, lookup, getContacts, deleteContact, getMessages,
    this_api.
  repeat split; intros; rewrite api_sent; reflexivity.
Qed.

(** X20. The five methods that take a payload send exactly one [POST]
    request each, and always with a body, the serialised payload, also when
    every optional argument is left out: an object is truthy.
    [sendTypingIndicator] sends the number twice, in the query string and
    in the body. *)
Theorem payload_methods_on_the_wire (net : Network) :
  (forall number content sendStyle mediaUrl statusCallback,
      sent
        (snd
           (sendMessage JSON_stringify publicKey secretKey number content
              sendStyle mediaUrl statusCallback net))
      = sent net ++
          wire "POST" "/api/send-message"
            (Some
               (JSON_stringify
                  (sendMessage_payload number content sendStyle mediaUrl
                     statusCallback))))
  /\ (forall numbers content groupId sendStyle mediaUrl statusCallback,
        sent
          (snd
             (sendGroupMessage JSON_stringify publicKey secretKey numbers
                content groupId sendStyle mediaUrl statusCallback net))
        = sent net ++
            wire "POST" "/api/send-group-message"
              (Some
                 (JSON_stringify
                    (sendGroupMessage_payload numbers content groupId
                       sendStyle mediaUrl statusCallback))))
  /\ (forall groupId modifyType number,
        sent
          (snd
             (modifyGroup JSON_stringify publicKey secretKey groupId
                modifyType number net))
        = sent net ++
            wire "POST" "/modify-group"
              (Some
                 (JSON_stringify
                    (modifyGroup_payload groupId modifyType number))))
  /\ (forall number,
        sent
          (snd
             (sendTypingIndicator JSON_stringify publicKey secretKey number
                net))
        = sent net ++
            wire "POST" ("/api/send-typing-indicator?number=" ++ number)
              (Some (JSON_stringify (sendTypingIndicator_payload number))))
  /\ (forall number firstName lastName companyName,
        sent
          (snd
             (createContact JSON_stringify publicKey secretKey number
                firstName lastName companyName net))
        = sent net ++
            wire "POST" "/accounts/contacts"
              (Some
                 (JSON_stringify
                    (createContact_payload number firstName lastName
                       companyName)))).
Proof.
  unfold sendMessage, sendGroupMessage, modifyGroup, sendTypingIndicator,
    createContact, this_api.
  repeat split; intros; rewrite ?bind_ret, api_sent; reflexivity.
Qed.

(** X21. [lookup] and [sendTypingIndicator] put the phone number into the
    route, so that on a status that is not [ok] (the body being JSON and
    not [null]) the message of the [SendblueError] they throw contains the
    number; the cause of [lookup]'s error has no request, that of
    [sendTypingIndicator]'s has the serialised payload. *)
Theorem number_methods_error (number : string) (net : Network)
    (response : Response) (parsed : JSON) :
  (forall request, respond net request = Fulfilled response) ->
  resp_json response = Fulfilled parsed ->
  resp_ok response = false ->
  parsed <> JNull ->
  (exists e,
      fst (lookup JSON_stringify publicKey secretKey number net)
      = Rejected (SendblueThrown e)
      /\ JsString.occurs_in number (error_message e)
      /\ cause_request (error_cause e) = None)
  /\ (exists e,
        fst (sendTypingIndicator JSON_stringify publicKey secretKey number net)
        = Rejected (SendblueThrown e)
        /\ JsString.occurs_in number (error_message e)
        /\ cause_request (error_cause e)
           = Some (JSON_stringify (sendTypingIndicator_payload number))).
Proof.
  intros Hresp Hjson Hok Hp. unfold lookup, sendTypingIndicator, this_api.
  split.
  - rewrite (api_not_ok JSON_stringify publicKey secretKey _ _ _ net response
               parsed Hresp Hjson Hok Hp).
    eexists. split; [reflexivity|]. split; [|reflexivity].
    cbn [error_message].
    exists ("Error fetching data from Sendblue on route " ++ double_quote
              ++ "/api/evaluate-service?number=")%string, double_quote.
    reflexivity.
  - rewrite bind_ret.
    rewrite (api_not_ok JSON_stringify publicKey secretKey _ _ _ net response
               parsed Hresp Hjson Hok Hp).
    eexists. split; [reflexivity|]. split; [|reflexivity].
    cbn [error_message].
    exists ("Error fetching data from Sendblue on route " ++ double_quote
              ++ "/api/send-typing-indicator?number=")%string, double_quote.
    reflexivity.
Qed.

End EndpointFacts.

Lemma number_methods_error_witness :
  (exists e,
      fst
        (lookup (fun _ => "{}") "pk" "sk" "+15551234567"
           (mkNetwork
              (fun _ =>
                 Fulfilled
                   (mkResponse 400
                      (Fulfilled (JObject [("message", JString "bad number")]))))
              []))
      = Rejected (SendblueThrown e)
      /\ JsString.occurs_in "+15551234567" (error_message e)
      /\ cause_request (error_cause e) = None)
  /\ (exists e,
        fst
          (sendTypingIndicator (fun _ => "{}") "pk" "sk" "+15551234567"
             (mkNetwork
                (fun _ =>
                   Fulfilled
                     (mkResponse 400
                        (Fulfilled
                           (JObject [("message", JString "bad number")]))))
                []))
        = Rejected (SendblueThrown e)
        /\ JsString.occurs_in "+15551234567" (error_message e)
        /\ cause_request (error_cause e)
           = Some "{}").
Proof.
  apply (number_methods_error (fun _ => "{}") "pk" "sk" "+15551234567"
           (mkNetwork
              (fun _ =>
                 Fulfilled
                   (mkResponse 400
                      (Fulfilled (JObject [("message", JString "bad number")]))))
              [])
           (mkResponse 400
              (Fulfilled (JObject [("message", JString "bad number")])))
           (JObject [("message", JString "bad number")])).
  - intros request. reflexivity.
  - reflexivity.
  - reflexivity.
  - discriminate.
Defined.
